(* ===================================================================== *)
(* Track reconciliation and presence timing of facedetection/face_analysis.py *)
(*                                                                       *)
(* Shallow embedding of update_person_timer, FaceAnalysis.find_face,     *)
(* FaceAnalysis.match_eye_openness, the tracking branch of               *)
(* FaceAnalysis.get, FaceAnalysis.draw_on and FaceAnalysis._add_todb,    *)
(* of the statistics of EyeDetectionApp (eye_detection_script.py) and of *)
(* the summary of test_eye_detection.py.  Python floats (timestamps,     *)
(* scores, coordinates) are read as exact rationals Q; dictionaries are  *)
(* gmaps.                                                                *)
(* ===================================================================== *)

From Stdlib Require Import Floats.
From Stdlib Require Import QArith Qround Lqa ZArith Lia Sorted DecimalString.
From stdpp Require Import gmap strings list fin_maps.

Local Open Scope string_scope.
Local Open Scope list_scope.

Set Warnings "-inexact-float".

(* --------------------------------------------------------------------- *)
(* Numbers                                                               *)
(* --------------------------------------------------------------------- *)

(* a < b on floats, as a boolean *)
Definition Qltb (a b : Q) : bool :=
  (Qnum a * QDen b <? Qnum b * QDen a)%Z.

(* a >= b *)
Definition Qgeb (a b : Q) : bool := Qle_bool b a.

(* Python's int(x) on a float: truncation towards zero *)
Definition py_int (x : Q) : Z :=
  if Qle_bool 0 x then Qfloor x else Qceiling x.

(* Python's max(a, b) and min(a, b) on two numbers: the first argument is
   kept unless the second one is strictly better *)
Definition py_max (a b : Q) : Q := if Qltb a b then b else a.
Definition py_min (a b : Q) : Q := if Qltb b a then b else a.

(* --------------------------------------------------------------------- *)
(* Presence timers: PERSON_TIMERS and update_person_timer                *)
(* --------------------------------------------------------------------- *)

(* One value of the PERSON_TIMERS dictionary.  'first_seen' and
   'last_seen' are always read with [..]; 'paused_at' is read with .get,
   so an absent key and a None value are the same; 'accumulated_time' is
   tested with "not in", so its presence is part of the state. *)
Record PersonTimer := mkTimer {
  first_seen : Q;
  last_seen : Q;
  paused_at : option Q;
  accumulated_time : option Z
}.

Definition RESET_THRESHOLD : Q := 10.

(* the dictionary literal written at a first sighting and at a reset *)
Definition new_timer (current_time : Q) : PersonTimer :=
  mkTimer current_time current_time None (Some 0%Z).

Definition set_last_seen (v : Q) (t : PersonTimer) : PersonTimer :=
  mkTimer (first_seen t) v (paused_at t) (accumulated_time t).
Definition set_first_seen (v : Q) (t : PersonTimer) : PersonTimer :=
  mkTimer v (last_seen t) (paused_at t) (accumulated_time t).
Definition set_paused_at (v : option Q) (t : PersonTimer) : PersonTimer :=
  mkTimer (first_seen t) (last_seen t) v (accumulated_time t).
Definition set_accumulated_time (v : Z) (t : PersonTimer) : PersonTimer :=
  mkTimer (first_seen t) (last_seen t) (paused_at t) (Some v).

(* the is_timer_paused branch on an entry whose last_seen is up to date *)
Definition pause_branch (current_time : Q) (t : PersonTimer) : PersonTimer * Z :=
  let t' :=
    match paused_at t with
    | None =>
        let t1 :=
          match accumulated_time t with
          | None => set_accumulated_time (py_int (current_time - first_seen t)) t
          | Some _ => t
          end in
        set_paused_at (Some current_time) t1
    | Some _ => t
    end in
  (t', default 0%Z (accumulated_time t')).

(* the running branch on an entry whose last_seen is up to date *)
Definition run_branch (current_time : Q) (t : PersonTimer) : PersonTimer * Z :=
  let t' :=
    match paused_at t with
    | Some p =>
        let paused_duration := (current_time - p)%Q in
        set_paused_at None (set_first_seen (first_seen t + paused_duration)%Q t)
    | None => t
    end in
  (t', py_int (current_time - first_seen t')).

(* update_person_timer: the new PERSON_TIMERS and the returned seconds *)
Definition update_person_timer (timers : gmap string PersonTimer)
    (person_name : string) (current_time : Q) (is_timer_paused : bool)
    : gmap string PersonTimer * Z :=
  if bool_decide (person_name = "unknown") || bool_decide (person_name = "")
  then (timers, 0%Z)
  else
    match timers !! person_name with
    | Some t =>
        let time_since_last_seen := (current_time - last_seen t)%Q in
        if Qltb RESET_THRESHOLD time_since_last_seen
        then (<[person_name := new_timer current_time]> timers, 0%Z)
        else
          let t1 := set_last_seen current_time t in
          let '(t2, r) :=
            if is_timer_paused then pause_branch current_time t1
            else run_branch current_time t1 in
          (<[person_name := t2]> timers, r)
    | None => (<[person_name := new_timer current_time]> timers, 0%Z)
    end.

(* the names update_person_timer does not ignore *)
Definition valid_name (person_name : string) : Prop :=
  person_name ≠ "unknown" ∧ person_name ≠ "".

(* what every entry of a reachable PERSON_TIMERS looks like *)
Definition timer_entry_ok (person_name : string) (t : PersonTimer) : Prop :=
  valid_name person_name ∧ accumulated_time t = Some 0%Z.

(* the values PERSON_TIMERS can take: it starts empty and only
   update_person_timer writes to it *)
Inductive reachable_timers : gmap string PersonTimer → Prop :=
  | reachable_empty : reachable_timers ∅
  | reachable_update timers person_name current_time is_timer_paused :
      reachable_timers timers →
      reachable_timers
        (update_person_timer timers person_name current_time is_timer_paused).1.

(* --------------------------------------------------------------------- *)
(* Exceptions                                                            *)
(* --------------------------------------------------------------------- *)

Inductive exn := ZeroDivisionError | KeyError.

(* what a call does: it returns a value or raises *)
Inductive outcome (A : Type) :=
  | Returned (a : A)
  | Raised (e : exn).
Arguments Returned {A} a.
Arguments Raised {A} e.

#[global] Instance outcome_ret : MRet outcome := λ A a, Returned a.
#[global] Instance outcome_bind : MBind outcome := λ A B f m,
  match m with
  | Returned a => f a
  | Raised e => Raised e
  end.

(* a / float(b) *)
Definition py_div (a b : Q) : outcome Q :=
  if Qeq_bool b 0 then Raised ZeroDivisionError else Returned (a / b)%Q.

(* --------------------------------------------------------------------- *)
(* FaceAnalysis.match_eye_openness                                       *)
(* --------------------------------------------------------------------- *)

Definition BBox : Type := Q * Q * Q * Q.

(* one element of eye_opennesses['faces_data'], with the keys that
   face_analysis.py reads *)
Record FaceData := mkFaceData {
  fd_bbox : BBox;
  fd_left_eye_open : bool;
  fd_right_eye_open : bool
}.

(* the detector's result: a dictionary that may lack 'faces_data' *)
Record EyeOpennesses := mkEyeOpennesses {
  faces_data : option (list FaceData)
}.

(* the body of the loop over faces_data: None when the boxes do not
   intersect, the IoU when they do *)
Definition pair_iou (bbox : BBox) (face_data : FaceData) : outcome (option Q) :=
  let '(x1, y1, x2, y2) := bbox in
  let '(ex1, ey1, ex2, ey2) := fd_bbox face_data in
  let ix1 := py_max x1 ex1 in
  let iy1 := py_max y1 ey1 in
  let ix2 := py_min x2 ex2 in
  let iy2 := py_min y2 ey2 in
  if Qltb ix1 ix2 && Qltb iy1 iy2 then
    let inter_area := ((ix2 - ix1) * (iy2 - iy1))%Q in
    let box_area := ((x2 - x1) * (y2 - y1))%Q in
    let bbox_area := ((ex2 - ex1) * (ey2 - ey1))%Q in
    iou ← py_div inter_area (box_area + bbox_area - inter_area)%Q;
    mret (Some iou)
  else mret None.

(* the list ious built by the loop *)
Fixpoint collect_ious (bbox : BBox) (fds : list FaceData)
    : outcome (list (Q * FaceData)) :=
  match fds with
  | [] => mret []
  | face_data :: rest =>
      r ← pair_iou bbox face_data;
      ious ← collect_ious bbox rest;
      mret (match r with
            | Some iou => (iou, face_data) :: ious
            | None => ious
            end)
  end.

(* max(ious, key=lambda x: x[0]) on best :: l: the first element whose key
   no other element exceeds *)
Fixpoint max_by_iou (best : Q * FaceData) (l : list (Q * FaceData))
    : Q * FaceData :=
  match l with
  | [] => best
  | c :: l' => if Qltb (fst best) (fst c) then max_by_iou c l' else max_by_iou best l'
  end.

Definition IOU_THRESHOLD : Q := 4 # 10.

Definition match_eye_openness (eye_opennesses : option EyeOpennesses)
    (bbox : BBox) : outcome (option FaceData) :=
  match eye_opennesses with
  | None => mret None
  | Some eo =>
      match faces_data eo with
      | None => mret None
      | Some fds =>
          ious ← collect_ious bbox fds;
          mret (match ious with
                | [] => None
                | c :: l =>
                    let max_iou_tuple := max_by_iou c l in
                    let max_iou := fst max_iou_tuple in
                    if Qltb IOU_THRESHOLD max_iou then Some (snd max_iou_tuple) else None
                end)
      end
  end.

(* The quantities of the loop body, named for the statements below. *)
Definition box_area (b : BBox) : Q :=
  let '(x1, y1, x2, y2) := b in ((x2 - x1) * (y2 - y1))%Q.

Definition inter_box (a b : BBox) : BBox :=
  let '(x1, y1, x2, y2) := a in
  let '(ex1, ey1, ex2, ey2) := b in
  (py_max x1 ex1, py_max y1 ey1, py_min x2 ex2, py_min y2 ey2).

(* the test "ix1 < ix2 and iy1 < iy2" *)
Definition boxes_intersect (a b : BBox) : bool :=
  let '(ix1, iy1, ix2, iy2) := inter_box a b in Qltb ix1 ix2 && Qltb iy1 iy2.

Definition inter_area (a b : BBox) : Q := box_area (inter_box a b).

Definition union_area (a b : BBox) : Q :=
  (box_area a + box_area b - inter_area a b)%Q.

(* the entry the loop appends to ious for one detection, if any *)
Definition iou_entry (bbox : BBox) (face_data : FaceData) : option (Q * FaceData) :=
  if boxes_intersect bbox (fd_bbox face_data)
  then Some ((inter_area bbox (fd_bbox face_data)
              / union_area bbox (fd_bbox face_data))%Q, face_data)
  else None.

(* --------------------------------------------------------------------- *)
(* update_person_timer and match_eye_openness on binary64                *)
(* --------------------------------------------------------------------- *)

(* Python's float is IEEE 754 binary64, which is the format of the
   primitive floats: + - * / round to the nearest value, every comparison
   with a nan is false, and a decimal literal stands for the nearest
   binary64 value, in Python as here.  Float64 gives the two functions
   whose results depend on rounding, underflow or nan with these
   operations in place of the exact ones. *)
Module Float64.

Local Open Scope float_scope.

(* the rational a finite float stands for *)
Definition exact (x : float) : Q :=
  match Prim2SF x with
  | S754_finite s m e =>
      let v := (inject_Z (Z.pos m) * 2 ^ e)%Q in
      if s then (- v)%Q else v
  | _ => 0%Q
  end.

(* int(x): truncation towards zero; None where Python raises, ValueError
   on a nan and OverflowError on an infinity *)
Definition py_int (x : float) : option Z :=
  match Prim2SF x with
  | S754_zero _ => Some 0%Z
  | S754_finite s m e =>
      let n := Z.shiftl (Z.pos m) e in
      Some (if s then (- n)%Z else n)
  | S754_infinity _ | S754_nan => None
  end.

(* max(a, b) and min(a, b): the first argument is kept unless the second
   one is strictly better *)
Definition py_max (a b : float) : float := if a <? b then b else a.
Definition py_min (a b : float) : float := if b <? a then b else a.

(* a / float(b) *)
Definition py_div (a b : float) : outcome float :=
  if b =? 0 then Raised ZeroDivisionError else Returned (a / b).

Record PersonTimer := mkTimer {
  first_seen : float;
  last_seen : float;
  paused_at : option float;
  accumulated_time : option Z
}.

Definition RESET_THRESHOLD : float := 10.

Definition new_timer (current_time : float) : PersonTimer :=
  mkTimer current_time current_time None (Some 0%Z).

Definition set_last_seen (v : float) (t : PersonTimer) : PersonTimer :=
  mkTimer (first_seen t) v (paused_at t) (accumulated_time t).
Definition set_first_seen (v : float) (t : PersonTimer) : PersonTimer :=
  mkTimer v (last_seen t) (paused_at t) (accumulated_time t).
Definition set_paused_at (v : option float) (t : PersonTimer) : PersonTimer :=
  mkTimer (first_seen t) (last_seen t) v (accumulated_time t).
Definition set_accumulated_time (v : Z) (t : PersonTimer) : PersonTimer :=
  mkTimer (first_seen t) (last_seen t) (paused_at t) (Some v).

(* the is_timer_paused branch on an entry whose last_seen is up to date;
   None when int() raises *)
Definition pause_branch (current_time : float) (t : PersonTimer)
    : option (PersonTimer * Z) :=
  t' ← match paused_at t with
       | None =>
           t1 ← match accumulated_time t with
                | None =>
                    a ← py_int (current_time - first_seen t);
                    Some (set_accumulated_time a t)
                | Some _ => Some t
                end;
           Some (set_paused_at (Some current_time) t1)
       | Some _ => Some t
       end;
  Some (t', default 0%Z (accumulated_time t')).

(* the running branch on an entry whose last_seen is up to date *)
Definition run_branch (current_time : float) (t : PersonTimer)
    : option (PersonTimer * Z) :=
  let t' :=
    match paused_at t with
    | Some p =>
        let paused_duration := current_time - p in
        set_paused_at None (set_first_seen (first_seen t + paused_duration) t)
    | None => t
    end in
  r ← py_int (current_time - first_seen t');
  Some (t', r).

(* update_person_timer: the new PERSON_TIMERS and the returned seconds, or
   None when int() raises (what PERSON_TIMERS holds then is not followed) *)
Definition update_person_timer (timers : gmap string PersonTimer)
    (person_name : string) (current_time : float) (is_timer_paused : bool)
    : option (gmap string PersonTimer * Z) :=
  if bool_decide (person_name = "unknown") || bool_decide (person_name = "")
  then Some (timers, 0%Z)
  else
    match timers !! person_name with
    | Some t =>
        let time_since_last_seen := current_time - last_seen t in
        if RESET_THRESHOLD <? time_since_last_seen
        then Some (<[person_name := new_timer current_time]> timers, 0%Z)
        else
          let t1 := set_last_seen current_time t in
          '(t2, r) ← (if is_timer_paused then pause_branch current_time t1
                      else run_branch current_time t1);
          Some (<[person_name := t2]> timers, r)
    | None => Some (<[person_name := new_timer current_time]> timers, 0%Z)
    end.

(* the values PERSON_TIMERS can take: it starts empty and only
   update_person_timer writes to it *)
Inductive reachable_timers : gmap string PersonTimer → Prop :=
  | reachable_empty : reachable_timers ∅
  | reachable_update timers person_name current_time is_timer_paused timers' r :
      reachable_timers timers →
      update_person_timer timers person_name current_time is_timer_paused
        = Some (timers', r) →
      reachable_timers timers'.

(* a run of calls from the given PERSON_TIMERS: the dictionary at the end
   and the values returned *)
Fixpoint timer_calls (calls : list (string * float * bool))
    (timers : gmap string PersonTimer)
    : option (gmap string PersonTimer * list Z) :=
  match calls with
  | [] => Some (timers, [])
  | (person_name, current_time, is_timer_paused) :: rest =>
      '(timers1, r) ← update_person_timer timers person_name current_time
                         is_timer_paused;
      '(timers2, rs) ← timer_calls rest timers1;
      Some (timers2, r :: rs)
  end.

Definition BBox : Type := float * float * float * float.

Record FaceData := mkFaceData {
  fd_bbox : BBox;
  fd_left_eye_open : bool;
  fd_right_eye_open : bool
}.

Record EyeOpennesses := mkEyeOpennesses {
  faces_data : option (list FaceData)
}.

(* the body of the loop over faces_data: None when the boxes do not
   intersect, the IoU when they do *)
Definition pair_iou (bbox : BBox) (face_data : FaceData) : outcome (option float) :=
  let '(x1, y1, x2, y2) := bbox in
  let '(ex1, ey1, ex2, ey2) := fd_bbox face_data in
  let ix1 := py_max x1 ex1 in
  let iy1 := py_max y1 ey1 in
  let ix2 := py_min x2 ex2 in
  let iy2 := py_min y2 ey2 in
  if (ix1 <? ix2) && (iy1 <? iy2) then
    let inter_area := (ix2 - ix1) * (iy2 - iy1) in
    let box_area := (x2 - x1) * (y2 - y1) in
    let bbox_area := (ex2 - ex1) * (ey2 - ey1) in
    iou ← py_div inter_area (box_area + bbox_area - inter_area);
    mret (Some iou)
  else mret None.

(* the list ious built by the loop *)
Fixpoint collect_ious (bbox : BBox) (fds : list FaceData)
    : outcome (list (float * FaceData)) :=
  match fds with
  | [] => mret []
  | face_data :: rest =>
      r ← pair_iou bbox face_data;
      ious ← collect_ious bbox rest;
      mret (match r with
            | Some iou => (iou, face_data) :: ious
            | None => ious
            end)
  end.

(* max(ious, key=lambda x: x[0]) on best :: l: an element replaces the
   running maximum when its key is strictly greater *)
Fixpoint max_by_iou (best : float * FaceData) (l : list (float * FaceData))
    : float * FaceData :=
  match l with
  | [] => best
  | c :: l' => if fst best <? fst c then max_by_iou c l' else max_by_iou best l'
  end.

Definition IOU_THRESHOLD : float := 0.4.

Definition match_eye_openness (eye_opennesses : option EyeOpennesses)
    (bbox : BBox) : outcome (option FaceData) :=
  match eye_opennesses with
  | None => mret None
  | Some eo =>
      match faces_data eo with
      | None => mret None
      | Some fds =>
          ious ← collect_ious bbox fds;
          mret (match ious with
                | [] => None
                | c :: l =>
                    let max_iou_tuple := max_by_iou c l in
                    let max_iou := fst max_iou_tuple in
                    if IOU_THRESHOLD <? max_iou then Some (snd max_iou_tuple) else None
                end)
      end
  end.

(* The quantities below are named for the statements. *)

(* the entry a call inside the absence gap leaves for an entry t that
   holds the key 'accumulated_time' *)
Definition kept_entry (current_time : float) (is_timer_paused : bool)
    (t : PersonTimer) : PersonTimer :=
  if is_timer_paused
  then mkTimer (first_seen t) current_time
         (Some (default current_time (paused_at t))) (accumulated_time t)
  else mkTimer
         (match paused_at t with
          | Some p => first_seen t + (current_time - p)
          | None => first_seen t
          end)
         current_time None (accumulated_time t).

(* the entry the loop appends to ious for one detection, if it gets there *)
Definition iou_entry (bbox : BBox) (face_data : FaceData)
    : option (float * FaceData) :=
  match pair_iou bbox face_data with
  | Returned (Some iou) => Some (iou, face_data)
  | _ => None
  end.

(* a box of floats as the box of rationals they stand for *)
Definition exact_bbox (b : BBox) : Q * Q * Q * Q :=
  let '(x1, y1, x2, y2) := b in (exact x1, exact y1, exact x2, exact y2).

(* PERSON_TIMERS after update_person_timer('alice', 0.0) and after a
   following update_person_timer('alice', 5.0, True) *)
Definition demo_timers_seen : gmap string PersonTimer :=
  {["alice" := mkTimer 0 0 None (Some 0%Z)]}.
Definition demo_timers_paused : gmap string PersonTimer :=
  {["alice" := mkTimer 0 5 (Some 5) (Some 0%Z)]}.

(* the loop has an IoU for every detection that passes its test, and none
   of them is a nan *)
Definition ious_comparable (bbox : BBox) (fds : list FaceData) : Prop :=
  ∀ face_data, face_data ∈ fds →
    ∃ r, pair_iou bbox face_data = Returned r ∧
         ∀ iou, r = Some iou → is_nan iou = false.

End Float64.

(* --------------------------------------------------------------------- *)
(* FaceAnalysis.find_face                                                *)
(* --------------------------------------------------------------------- *)

Definition Embedding : Type := list Q.

Record KnownPerson := mkKnownPerson {
  kp_name : string;
  kp_embedding : Embedding;
  kp_pinfl : string;
  kp_image_path : string
}.

(* the dictionary find_face returns *)
Record Match := mkMatch {
  m_name : string;
  m_score : Q;
  m_pinfl : string;
  m_image_path : string
}.

(* list.sort(key=lambda x: -x['score']) is stable: x, which stood before
   every element of l, stays before those with the same score *)
Fixpoint insert_by_score (x : Match) (l : list Match) : list Match :=
  match l with
  | [] => [x]
  | y :: l' =>
      if Qle_bool (m_score y) (m_score x) then x :: y :: l'
      else y :: insert_by_score x l'
  end.

Definition sort_by_score (l : list Match) : list Match :=
  foldr insert_by_score [] l.

(* --------------------------------------------------------------------- *)
(* Track records                                                         *)
(* --------------------------------------------------------------------- *)

Definition Keypoints : Type := list (Q * Q).

(* the attributes of a TrackableObject that face_analysis.py reads or writes *)
Record TrackableObject := mkTrack {
  objectID : Z;
  bbox : BBox;
  kps : Keypoints;
  live : bool;
  lost_count : Z;
  recognized : bool;
  name : string;
  pinfl : string;
  score : Q;
  image_path : string;
  age : Z;
  gender : Z;
  left_eye_open : string;
  right_eye_open : string;
  cumulative_closed_time : Q;
  timer_paused : bool;
  last_eye_check_time : option Q
}.

Definition set_live (b : bool) (t : TrackableObject) : TrackableObject :=
  mkTrack (objectID t) (bbox t) (kps t) b (lost_count t) (recognized t)
    (name t) (pinfl t) (score t) (image_path t) (age t) (gender t)
    (left_eye_open t) (right_eye_open t) (cumulative_closed_time t)
    (timer_paused t) (last_eye_check_time t).

(* bbox, kps, live = True, lost_count = 0 *)
Definition set_geometry (b : BBox) (k : Keypoints) (t : TrackableObject)
    : TrackableObject :=
  mkTrack (objectID t) b k true 0%Z (recognized t)
    (name t) (pinfl t) (score t) (image_path t) (age t) (gender t)
    (left_eye_open t) (right_eye_open t) (cumulative_closed_time t)
    (timer_paused t) (last_eye_check_time t).

(* name, pinfl, score, image_path taken from a match *)
Definition set_identity (p : Match) (t : TrackableObject) : TrackableObject :=
  mkTrack (objectID t) (bbox t) (kps t) (live t) (lost_count t) (recognized t)
    (m_name p) (m_pinfl p) (m_score p) (m_image_path p) (age t) (gender t)
    (left_eye_open t) (right_eye_open t) (cumulative_closed_time t)
    (timer_paused t) (last_eye_check_time t).

Definition set_recognized (b : bool) (t : TrackableObject) : TrackableObject :=
  mkTrack (objectID t) (bbox t) (kps t) (live t) (lost_count t) b
    (name t) (pinfl t) (score t) (image_path t) (age t) (gender t)
    (left_eye_open t) (right_eye_open t) (cumulative_closed_time t)
    (timer_paused t) (last_eye_check_time t).

Definition set_age_gender (a g : Z) (t : TrackableObject) : TrackableObject :=
  mkTrack (objectID t) (bbox t) (kps t) (live t) (lost_count t) (recognized t)
    (name t) (pinfl t) (score t) (image_path t) a g
    (left_eye_open t) (right_eye_open t) (cumulative_closed_time t)
    (timer_paused t) (last_eye_check_time t).

Definition set_eyes (l r : string) (t : TrackableObject) : TrackableObject :=
  mkTrack (objectID t) (bbox t) (kps t) (live t) (lost_count t) (recognized t)
    (name t) (pinfl t) (score t) (image_path t) (age t) (gender t)
    l r (cumulative_closed_time t) (timer_paused t) (last_eye_check_time t).

Definition set_cumulative_closed_time (c : Q) (t : TrackableObject)
    : TrackableObject :=
  mkTrack (objectID t) (bbox t) (kps t) (live t) (lost_count t) (recognized t)
    (name t) (pinfl t) (score t) (image_path t) (age t) (gender t)
    (left_eye_open t) (right_eye_open t) c (timer_paused t)
    (last_eye_check_time t).

Definition set_timer_paused (b : bool) (t : TrackableObject) : TrackableObject :=
  mkTrack (objectID t) (bbox t) (kps t) (live t) (lost_count t) (recognized t)
    (name t) (pinfl t) (score t) (image_path t) (age t) (gender t)
    (left_eye_open t) (right_eye_open t) (cumulative_closed_time t) b
    (last_eye_check_time t).

Definition set_last_eye_check_time (c : option Q) (t : TrackableObject)
    : TrackableObject :=
  mkTrack (objectID t) (bbox t) (kps t) (live t) (lost_count t) (recognized t)
    (name t) (pinfl t) (score t) (image_path t) (age t) (gender t)
    (left_eye_open t) (right_eye_open t) (cumulative_closed_time t)
    (timer_paused t) c.

(* --------------------------------------------------------------------- *)
(* FaceAnalysis state and one frame of input                             *)
(* --------------------------------------------------------------------- *)

(* the attributes of self that the tracking branch of get uses.  The
   OrderedDict trackableObjects is a gmap: the loops over it (marking,
   collecting the dead ids) do not depend on the order. *)
Record FaceAnalysis := mkFaceAnalysis {
  known_people : list KnownPerson;
  rec_thresh : Q;
  trackableObjects : gmap Z TrackableObject;
  seen_people : gmap string Z;
  record_people : gmap string Q
}.

(* one element of the tracker's output, together with what the external
   models and the clock give while it is processed *)
Record TrackedObject := mkTrackedObject {
  obj_id : Z;                 (* obj[1] *)
  obj_bbox : BBox;            (* obj[2:6] *)
  obj_facial5points : Keypoints;  (* facial5points, built from obj[6] *)
  obj_embedding : Embedding;  (* face.embedding after rec_model.get *)
  obj_age : Z;                (* face['age'] after genderage_model.get *)
  obj_gender : Z;             (* face['gender'] *)
  obj_seen_time : Q;          (* time() read when the sighting is recorded *)
  obj_eye_time : Q            (* current_time = time() of the closure check *)
}.

Definition set_trackableObjects (m : gmap Z TrackableObject) (fa : FaceAnalysis)
    : FaceAnalysis :=
  mkFaceAnalysis (known_people fa) (rec_thresh fa) m (seen_people fa)
    (record_people fa).

Definition set_sightings (seen : gmap string Z) (rec : gmap string Q)
    (fa : FaceAnalysis) : FaceAnalysis :=
  mkFaceAnalysis (known_people fa) (rec_thresh fa) (trackableObjects fa) seen rec.

(* the counters seen_people / record_people, updated for one recognition
   of person_name at time cur *)
Definition record_sighting (person_name : string) (cur : Q)
    (seen : gmap string Z) (rec : gmap string Q)
    : outcome (gmap string Z * gmap string Q) :=
  match rec !! person_name with
  | Some last =>
      seen' ← (if Qltb 15 (cur - last)%Q then
                 match seen !! person_name with
                 | Some n => mret (<[person_name := (n + 1)%Z]> seen)
                 | None => Raised KeyError
                 end
               else mret seen);
      mret (seen', <[person_name := cur]> rec)
  | None =>
      mret (<[person_name := (default 0%Z (seen !! person_name) + 1)%Z]> seen,
            <[person_name := cur]> rec)
  end.

(* the recognitions of a run, in order, each with the matched name and the
   clock value read for it; the result lists those that changed the
   seen_people counter of their name *)
Fixpoint sighting_increments (events : list (string * Q))
    (seen : gmap string Z) (rec : gmap string Q) : outcome (list (string * Q)) :=
  match events with
  | [] => mret []
  | (n, cur) :: rest =>
      '(seen', rec') ← record_sighting n cur seen rec;
      log ← sighting_increments rest seen' rec';
      mret (if bool_decide (seen' !! n = seen !! n) then log else (n, cur) :: log)
  end.

(* the eye state and closure bookkeeping of one track in one frame *)
Definition eye_update (eye_openness_data : option FaceData) (current_time : Q)
    (t : TrackableObject) : TrackableObject :=
  let t := set_eyes "unknown" "unknown" t in
  match eye_openness_data with
  | Some d =>
      let t := set_eyes (if fd_left_eye_open d then "Open" else "Closed")
                        (if fd_right_eye_open d then "Open" else "Closed") t in
      let any_eye_closed := negb (fd_left_eye_open d) || negb (fd_right_eye_open d) in
      let t := match last_eye_check_time t with
               | None => set_last_eye_check_time (Some current_time) t
               | Some _ => t
               end in
      let time_elapsed :=
        (current_time - default current_time (last_eye_check_time t))%Q in
      let t :=
        if any_eye_closed then
          let t := set_cumulative_closed_time
                     (cumulative_closed_time t + time_elapsed)%Q t in
          if Qgeb (cumulative_closed_time t) 3 then set_timer_paused true t else t
        else
          let t := if timer_paused t then set_timer_paused false t else t in
          set_cumulative_closed_time 0 t in
      set_last_eye_check_time (Some current_time) t
  | None => t
  end.

(* "not left_eye_open or not right_eye_open" of a matched detection *)
Definition any_eye_closed (d : FaceData) : bool :=
  negb (fd_left_eye_open d) || negb (fd_right_eye_open d).

(* successive frames of one track, each with a matched detection and the
   clock value of its closure check *)
Definition eye_step (t : TrackableObject) (f : FaceData * Q) : TrackableObject :=
  eye_update (Some f.1) f.2 t.

Definition final_time (start : Q) (frames : list (FaceData * Q)) : Q :=
  foldl (λ _ f, f.2) start frames.

(* every name with a record_people entry has a seen_people counter *)
Definition sightings_ok (seen : gmap string Z) (rec : gmap string Q) : Prop :=
  ∀ n, is_Some (rec !! n) → is_Some (seen !! n).

(* the identity fields of a track record *)
Definition same_identity (t t' : TrackableObject) : Prop :=
  name t' = name t ∧ pinfl t' = pinfl t ∧ score t' = score t ∧
  image_path t' = image_path t ∧ recognized t' = recognized t.

(* the fields identify leaves alone *)
Definition same_tracking_fields (t t' : TrackableObject) : Prop :=
  objectID t' = objectID t ∧ bbox t' = bbox t ∧ kps t' = kps t ∧
  live t' = live t ∧ lost_count t' = lost_count t ∧
  cumulative_closed_time t' = cumulative_closed_time t ∧
  timer_paused t' = timer_paused t ∧
  last_eye_check_time t' = last_eye_check_time t.

(* the ids the tracker confirms in one frame *)
Definition confirmed_ids (objects : list TrackedObject) : list Z :=
  obj_id <$> objects.

(* --------------------------------------------------------------------- *)
(* A concrete setting, used by the examples at the end                   *)
(* --------------------------------------------------------------------- *)

(* a similarity that can be computed: the dot product *)
Definition demo_similarity (a b : Embedding) : Q :=
  foldr Qplus 0%Q (zip_with Qmult a b).

Definition demo_round2 (q : Q) : Q := q.

(* a fresh record: not recognized, named "unknown", score 0, eyes never
   checked *)
Definition demo_new_TrackableObject (id : Z) (o : TrackedObject)
    : TrackableObject :=
  mkTrack id (obj_bbox o) (obj_facial5points o) true 0%Z false "unknown" ""
    0%Q "" 0%Z 0%Z "unknown" "unknown" 0%Q false None.

Definition demo_fa : FaceAnalysis :=
  mkFaceAnalysis [mkKnownPerson "alice" [1%Q] "123" "alice.jpg"] (4 # 10) ∅ ∅ ∅.

Definition demo_bbox : BBox := (0, 0, 7, 10)%Q.

(* track 1 as the tracker reports it at clock value now *)
Definition demo_object (emb : Embedding) (now : Q) : TrackedObject :=
  mkTrackedObject 1%Z demo_bbox [] emb 30%Z 1%Z now now.

(* a detection on the same box, with both eyes closed or both open *)
Definition demo_closed : FaceData := mkFaceData demo_bbox false false.
Definition demo_open : FaceData := mkFaceData demo_bbox true true.

Definition demo_eyes (fds : list FaceData) : option EyeOpennesses :=
  Some (mkEyeOpennesses (Some fds)).

(* track 1 once it is recognized as alice *)
Definition demo_recognized : TrackableObject :=
  mkTrack 1%Z demo_bbox [] true 0%Z true "alice" "123" (9 # 10) "alice.jpg"
    30%Z 1%Z "unknown" "unknown" 0%Q false None.

Definition demo_fa_recognized : FaceAnalysis :=
  mkFaceAnalysis [mkKnownPerson "alice" [1%Q] "123" "alice.jpg"] (4 # 10)
    {[ 1%Z := demo_recognized ]} ∅ ∅.

(* PERSON_TIMERS after alice is first seen at 0, and after she is paused at 5 *)
Definition demo_timers_seen : gmap string PersonTimer :=
  (update_person_timer ∅ "alice" 0 false).1.
Definition demo_timers_paused : gmap string PersonTimer :=
  (update_person_timer demo_timers_seen "alice" 5 true).1.

(* --------------------------------------------------------------------- *)
(* Sequences of update_person_timer calls                                *)
(* --------------------------------------------------------------------- *)

(* calls (person_name, current_time, is_timer_paused) made one after the
   other: the final PERSON_TIMERS and the values returned, in order *)
Fixpoint timer_calls (calls : list (string * Q * bool))
    (timers : gmap string PersonTimer) : gmap string PersonTimer * list Z :=
  match calls with
  | [] => (timers, [])
  | (person_name, current_time, is_timer_paused) :: rest =>
      let r := update_person_timer timers person_name current_time is_timer_paused in
      let rs := timer_calls rest r.1 in
      (rs.1, r.2 :: rs.2)
  end.

(* the clock values of a sequence of calls *)
Definition call_times (calls : list (string * Q * bool)) : list Q :=
  (λ c, c.1.2) <$> calls.


(* an entry is consistent with a clock that has reached now *)
Definition timer_sane (now : Q) (t : PersonTimer) : Prop :=
  (first_seen t <= last_seen t)%Q ∧ (last_seen t <= now)%Q ∧
  match paused_at t with
  | Some p => (first_seen t <= p)%Q ∧ (p <= last_seen t)%Q
  | None => True
  end.

(* --------------------------------------------------------------------- *)
(* FaceAnalysis._add_todb                                                *)
(* --------------------------------------------------------------------- *)

(* _add_todb, from the embeddings rec_model computes for the faces that
   det_model finds in img, in detection order: nothing changes when no face
   is found, otherwise the first face is enrolled at the end of known_people *)
Definition add_todb (fa : FaceAnalysis) (face_embeddings : list Embedding)
    (person_name pinfl image_path : string) : FaceAnalysis :=
  match face_embeddings with
  | [] => fa
  | embedding :: _ =>
      mkFaceAnalysis
        (known_people fa ++ [mkKnownPerson person_name embedding pinfl image_path])
        (rec_thresh fa) (trackableObjects fa) (seen_people fa) (record_people fa)
  end.

(* the sighting maps reachable from given ones by recognitions *)
Inductive sightings_reach :
    gmap string Z * gmap string Q → gmap string Z * gmap string Q → Prop :=
  | sightings_reach_refl s : sightings_reach s s
  | sightings_reach_step person_name cur seen rec seen' rec' s :
      record_sighting person_name cur seen rec = Returned (seen', rec') →
      sightings_reach (seen', rec') s →
      sightings_reach (seen, rec) s.

(* every counter is at least 1 and the two maps have the same names *)
Definition counters_ok (s : gmap string Z * gmap string Q) : Prop :=
  (∀ n, is_Some (s.1 !! n) ↔ is_Some (s.2 !! n)) ∧
  (∀ n c, s.1 !! n = Some c → (1 <= c)%Z).

(* no counter is lost or lowered *)
Definition counters_grow (s s' : gmap string Z * gmap string Q) : Prop :=
  ∀ n c, s.1 !! n = Some c → ∃ c', s'.1 !! n = Some c' ∧ (c <= c')%Z.

(* successive frames of one track, each with the detection matched for it,
   if any, and the clock value of its closure check *)
Definition eye_frame_step (t : TrackableObject) (f : option FaceData * Q)
    : TrackableObject :=
  eye_update f.1 f.2 t.

(* the closure fields agree with a clock that has reached now *)
Definition closure_ok (now : Q) (t : TrackableObject) : Prop :=
  (0 <= cumulative_closed_time t)%Q ∧
  (timer_paused t = true ↔ (3 <= cumulative_closed_time t)%Q) ∧
  match last_eye_check_time t with
  | Some l => (l <= now)%Q
  | None => True
  end.

(* the fields a record takes from the tracked object it was updated with *)
Definition carries (o : TrackedObject) (t : TrackableObject) : Prop :=
  bbox t = obj_bbox o ∧ kps t = obj_facial5points o ∧
  age t = obj_age o ∧ gender t = obj_gender o ∧
  live t = true ∧ lost_count t = 0%Z.

(* --------------------------------------------------------------------- *)
(* eye_detection_script.py: the statistics of EyeDetectionApp            *)
(* --------------------------------------------------------------------- *)

Module EyeScript.

(* one element of result['faces_data'], with the key the statistics read *)
Record Face := mkFace {
  both_eyes_open : bool
}.

(* what detect_eye_openness returns, without the annotated image *)
Record Result := mkResult {
  faces_detected : Z;
  faces_data : list Face
}.

(* the counters of an EyeDetectionApp *)
Record App := mkApp {
  frame_count : Z;
  total_face_detections : Z;
  awake_face_detections : Z;
  closed_face_detections : Z
}.

(* the counters after __init__ *)
Definition init : App := mkApp 0 0 0 0.

Definition _reset_statistics (a : App) : App := mkApp 0 0 0 0.

(* the body of "for face_data in result['faces_data']" *)
Definition count_face (a : App) (face_data : Face) : App :=
  if both_eyes_open face_data
  then mkApp (frame_count a) (total_face_detections a + 1)
             (awake_face_detections a + 1) (closed_face_detections a)
  else mkApp (frame_count a) (total_face_detections a + 1)
             (awake_face_detections a) (closed_face_detections a + 1).

(* the block "Update statistics" of process_camera and process_video *)
Definition update_statistics (a : App) (result : Result) : App :=
  let a := mkApp (frame_count a + 1) (total_face_detections a)
                 (awake_face_detections a) (closed_face_detections a) in
  if (0 <? faces_detected result)%Z then foldl count_face a (faces_data result)
  else a.

(* _add_statistics: the awake percentage written on the image, if any *)
Definition _add_statistics (a : App) : outcome (option Q) :=
  if (0 <? frame_count a)%Z && (0 <? total_face_detections a)%Z then
    ratio ← py_div (inject_Z (awake_face_detections a))
                   (inject_Z (total_face_detections a));
    mret (Some (ratio * 100)%Q)
  else mret None.


(* one turn of a "while True" loop: the frame cap.read() and the detector
   give if one is read (None when ret is False), and the value of
   cv2.waitKey(1) *)
Record Tick := mkTick {
  tick_frame : option Result;
  tick_key : Z
}.

(* a loop either goes on, with its counters and its paused flag, or has
   ended by break *)
Inductive Loop :=
  | Running (a : App) (paused : bool)
  | Stopped (a : App).

Definition app_of (l : Loop) : App :=
  match l with
  | Running a _ => a
  | Stopped a => a
  end.

(* ord('q'), ord('s'), ord('r'), ord(' ') *)
Definition KEY_Q : Z := 113.
Definition KEY_S : Z := 115.
Definition KEY_R : Z := 114.
Definition KEY_SPACE : Z := 32.

(* one turn of the loop of process_camera *)
Definition camera_turn (a : App) (paused : bool) (tick : Tick) : outcome Loop :=
  let keys (a : App) : Loop :=
    let key := Z.land (tick_key tick) 255 in
    if (key =? KEY_Q)%Z then Stopped a
    else if (key =? KEY_S)%Z then Running a paused
    else if (key =? KEY_R)%Z then Running (_reset_statistics a) paused
    else if (key =? KEY_SPACE)%Z then Running a (negb paused)
    else Running a paused in
  if paused then mret (keys a)
  else
    match tick_frame tick with
    | None => mret (Stopped a)
    | Some result =>
        let a := update_statistics a result in
        _ ← _add_statistics a;
        mret (keys a)
    end.

(* one turn of the loop of process_video *)
Definition video_turn (total_frames : Z) (a : App) (paused : bool) (tick : Tick)
    : outcome Loop :=
  let keys (a : App) : Loop :=
    let key := Z.land (tick_key tick) 255 in
    if (key =? KEY_Q)%Z then Stopped a
    else if (key =? KEY_SPACE)%Z then Running a (negb paused)
    else Running a paused in
  if paused then mret (keys a)
  else
    match tick_frame tick with
    | None => mret (Stopped a)
    | Some result =>
        let a := update_statistics a result in
        _ ← _add_statistics a;
        progress ← py_div (inject_Z (frame_count a)) (inject_Z total_frames);
        mret (keys a)
    end.

(* the turns of a loop on the given ticks, until it ends or they run out *)
Fixpoint turns (turn : App → bool → Tick → outcome Loop) (l : Loop)
    (ticks : list Tick) : outcome Loop :=
  match ticks, l with
  | [], _ => mret l
  | _, Stopped a => mret (Stopped a)
  | tick :: rest, Running a paused =>
      l' ← turn a paused tick;
      turns turn l' rest
  end.

(* process_camera on an opened camera, as far as the ticks go *)
Definition process_camera (a : App) (ticks : list Tick) : outcome Loop :=
  turns camera_turn (Running a false) ticks.

(* process_video on an opened video file, as far as the ticks go *)
Definition process_video (total_frames : Z) (a : App) (ticks : list Tick)
    : outcome Loop :=
  turns (video_turn total_frames) (Running a false) ticks.

(* the counters count every face once, as awake or as closed, and faces
   are only counted in counted frames *)
Definition stats_ok (a : App) : Prop :=
  (0 <= frame_count a)%Z ∧
  (0 <= awake_face_detections a)%Z ∧ (0 <= closed_face_detections a)%Z ∧
  total_face_detections a
    = (awake_face_detections a + closed_face_detections a)%Z ∧
  ((0 < total_face_detections a)%Z → (0 < frame_count a)%Z).

End EyeScript.

(* --------------------------------------------------------------------- *)
(* test_eye_detection.py: the summary of test_eye_detection              *)
(* --------------------------------------------------------------------- *)

Module EyeTest.

(* what detect_eye_openness returns for one image, with the keys the test
   reads *)
Record Detection := mkDetection {
  face_detected : bool;
  left_eye_open : bool;
  right_eye_open : bool;
  both_eyes_open : bool;
  left_ear : Q;
  right_ear : Q
}.

(* one element of results_summary *)
Record Entry := mkEntry {
  e_image : string;
  e_face_detected : bool;
  e_both_eyes_open : bool;
  e_left_ear : Q;
  e_right_ear : Q
}.

(* the numbers of the printed summary; the last component is present when
   a face was detected: eyes-open count, its percentage, and the average
   left and right EAR *)
Record Summary := mkSummary {
  s_total : Z;
  s_faces_detected : Z;
  s_faces_percentage : Q;
  s_eyes : option (Z * Q * Q * Q)
}.

(* the body of the loop over test_images: an image that cannot be loaded
   is skipped; the image is given by its base name and by the detector's
   result when cv2.imread succeeds *)
Definition entry_of (image : string * option Detection) : option Entry :=
  match image.2 with
  | None => None
  | Some result =>
      if face_detected result
      then Some (mkEntry image.1 true (both_eyes_open result)
                         (left_ear result) (right_ear result))
      else Some (mkEntry image.1 false false 0 0)
  end.

(* sum(1 for r in results_summary if ...) *)
Definition count (f : Entry → bool) (l : list Entry) : Z :=
  Z.of_nat (length (filter (λ r, f r = true) l)).

(* sum(r[...] for r in results_summary if r['face_detected']) *)
Definition sum_detected (f : Entry → Q) (l : list Entry) : Q :=
  foldr (λ r acc, (f r + acc)%Q) 0%Q (filter (λ r, e_face_detected r = true) l).

(* test_eye_detection: None when it returns before the loop because no
   image file is found *)
Definition test_eye_detection (test_images : list (string * option Detection))
    : outcome (option Summary) :=
  match test_images with
  | [] => mret None
  | _ =>
      let results_summary := omap entry_of test_images in
      let faces_detected := count e_face_detected results_summary in
      let eyes_open := count e_both_eyes_open results_summary in
      let total := Z.of_nat (length results_summary) in
      ratio ← py_div (inject_Z faces_detected) (inject_Z total);
      eyes ←
        (if (0 <? faces_detected)%Z then
           eyes_ratio ← py_div (inject_Z eyes_open) (inject_Z faces_detected);
           avg_left_ear ← py_div (sum_detected e_left_ear results_summary)
                                 (inject_Z faces_detected);
           avg_right_ear ← py_div (sum_detected e_right_ear results_summary)
                                  (inject_Z faces_detected);
           mret (Some (eyes_open, (eyes_ratio * 100)%Q, avg_left_ear, avg_right_ear))
         else mret None);
      mret (Some (mkSummary total faces_detected (ratio * 100)%Q eyes))
  end.

End EyeTest.

(* --------------------------------------------------------------------- *)
(* FaceAnalysis.draw_on                                                  *)
(* --------------------------------------------------------------------- *)

Definition Color : Type := Z * Z * Z.

(* the cv2 calls that draw on dimg, without font, scale and thickness *)
Inductive Draw :=
  | Rectangle (pt1 pt2 : Z * Z) (color : Color)
  | PutText (text : string) (org : Z * Z) (color : Color).

(* an int inside an f-string *)
Definition str (z : Z) : string := NilZero.string_of_int (Z.to_int z).

(* name[:name.index('red') - 1] for the index idx of 'red' in name: a stop
   of -1 drops the last character *)
Definition cut_name (name : string) (idx : nat) : string :=
  match idx with
  | O => String.substring 0 (String.length name - 1) name
  | S k => String.substring 0 k name
  end.

(* f'R: {track_obj.left_eye_open} L: {track_obj.right_eye_open}' *)
Definition eyes_text (t : TrackableObject) : string :=
  String.append "R: "
    (String.append (left_eye_open t) (String.append " L: " (right_eye_open t))).

(* the block "Add timer for recognized persons": the new PERSON_TIMERS and
   the line appended to person_info, if any *)
Definition timer_text (timers : gmap string PersonTimer) (shown_name : string)
    (current_time : Q) (t : TrackableObject)
    : gmap string PersonTimer * list string :=
  if recognized t then
    let is_paused := timer_paused t in
    let r := update_person_timer timers shown_name current_time is_paused in
    (r.1, [String.append "Time: "
             (String.append (str r.2)
                (String.append "s" (if is_paused then " (PAUSED)" else "")))])
  else (timers, []).

(* self.seen_people[name] *)
Definition seen_lookup (seen : gmap string Z) (n : string) : outcome Z :=
  match seen !! n with
  | Some c => mret c
  | None => Raised KeyError
  end.

(* the body of the loop of draw_on for one track; current_time is the
   value time() has if it is read.  bbox.astype(np.int32) truncates each
   coordinate towards zero; pixel coordinates are far from the int32
   bounds, so the positions are computed in Z. *)
Definition draw_track (seen : gmap string Z) (timers : gmap string PersonTimer)
    (t : TrackableObject) (current_time : Q)
    : outcome (gmap string PersonTimer * list Draw) :=
  if negb (live t) then mret (timers, [])
  else
    let '(x1, y1, x2, y2) := bbox t in
    let box := (py_int x1, py_int y1, py_int x2, py_int y2) in
    '(timers', person_info) ←
      (if String.eqb (name t) "unknown" then mret (timers, [eyes_text t; name t])
       else
         match String.index 0 "red" (name t) with
         | Some idx =>
             _ ← seen_lookup seen (name t);
             let shown := cut_name (name t) idx in
             let r := timer_text timers shown current_time t in
             mret (r.1, [eyes_text t; shown] ++ r.2)
         | None =>
             _ ← seen_lookup seen (name t);
             let r := timer_text timers (name t) current_time t in
             mret (r.1, [eyes_text t; name t] ++ r.2)
         end);
    let color : Color :=
      if String.eqb (left_eye_open t) "Open" && String.eqb (right_eye_open t) "Open"
      then (0, 255, 0)%Z else (0, 0, 255)%Z in
    mret (timers',
          Rectangle (box.1.1.1, box.1.1.2) (box.1.2, box.2) color
          :: imap (λ i line,
                     PutText line
                       (box.1.1.1, (box.1.1.2 - 65 + Z.of_nat i * 30)%Z) color)
                  person_info).

(* draw_on over the items of trackableObjects, in their order, each with
   its clock value: the new PERSON_TIMERS and the drawing calls *)
Fixpoint draw_on (seen : gmap string Z) (timers : gmap string PersonTimer)
    (items : list (TrackableObject * Q))
    : outcome (gmap string PersonTimer * list Draw) :=
  match items with
  | [] => mret (timers, [])
  | (t, current_time) :: rest =>
      '(timers1, draws1) ← draw_track seen timers t current_time;
      '(timers2, draws2) ← draw_on seen timers1 rest;
      mret (timers2, draws1 ++ draws2)
  end.

(* the name a track is shown and timed under *)
Definition shown_name (n : string) : string :=
  match String.index 0 "red" n with
  | Some idx => cut_name n idx
  | None => n
  end.

(* the call of update_person_timer draw_on makes for a track, if any *)
Definition timer_call (item : TrackableObject * Q) : option (string * Q * bool) :=
  let t := item.1 in
  if live t && recognized t && negb (String.eqb (name t) "unknown")
  then Some (shown_name (name t), item.2, timer_paused t)
  else None.

(* the rectangle draw_on draws for a track *)
Definition rectangle_of (t : TrackableObject) : Draw :=
  let '(x1, y1, x2, y2) := bbox t in
  Rectangle (py_int x1, py_int y1) (py_int x2, py_int y2)
    (if String.eqb (left_eye_open t) "Open" && String.eqb (right_eye_open t) "Open"
     then (0, 255, 0)%Z else (0, 0, 255)%Z).

Definition is_rectangle (d : Draw) : bool :=
  match d with
  | Rectangle _ _ _ => true
  | PutText _ _ _ => false
  end.

(* every track of the registry is named "unknown" or has a counter *)
Definition names_counted (fa : FaceAnalysis) : Prop :=
  ∀ id t, trackableObjects fa !! id = Some t →
          name t = "unknown" ∨ is_Some (seen_people fa !! name t).

(* alice recognized and paused, an unrecognized track and a dead one *)
Definition demo_items : list (TrackableObject * Q) :=
  [(set_eyes "Open" "Closed" (set_timer_paused true demo_recognized), 3%Q);
   (demo_new_TrackableObject 2 (demo_object [] 0), 3%Q);
   (set_live false demo_recognized, 3%Q)].

Section Engine.

(* 1 - cosine(a, b) of scipy *)
Variable similarity : Embedding → Embedding → Q.
(* round(score, 2) *)
Variable round2 : Q → Q.
(* TrackableObject(objectID, obj), the constructor of the tracking library *)
Variable new_TrackableObject : Z → TrackedObject → TrackableObject.

Definition find_face (people : list KnownPerson) (thresh : Q)
    (embedding : Embedding) : option Match :=
  let best_matches :=
    omap (λ person,
            let score := similarity (kp_embedding person) embedding in
            if Qltb thresh score
            then Some (mkMatch (kp_name person) (round2 score) (kp_pinfl person)
                               (kp_image_path person))
            else None) people in
  match sort_by_score best_matches with
  | [] => None
  | best :: _ => Some best
  end.

(* the block under "if not track_obj.recognized" *)
Definition identify (fa : FaceAnalysis) (o : TrackedObject) (t : TrackableObject)
    : outcome (TrackableObject * gmap string Z * gmap string Q) :=
  if recognized t then mret (t, seen_people fa, record_people fa)
  else
    let person := find_face (known_people fa) (rec_thresh fa) (obj_embedding o) in
    '(t1, seen, rec) ←
      match person with
      | Some p =>
          if Qltb (score t) (m_score p) then
            '(seen, rec) ← record_sighting (m_name p) (obj_seen_time o)
                             (seen_people fa) (record_people fa);
            mret (set_identity p t, seen, rec)
          else mret (t, seen_people fa, record_people fa)
      | None => mret (t, seen_people fa, record_people fa)
      end;
    mret (if Qltb 0 (score t1) then set_recognized true t1 else t1, seen, rec).

(* the body of "for obj in objects" *)
Definition process_object (eye_opennesses : option EyeOpennesses)
    (fa : FaceAnalysis) (o : TrackedObject) : outcome FaceAnalysis :=
  eye_openness_data ← match_eye_openness eye_opennesses (obj_bbox o);
  let track_obj :=
    default (new_TrackableObject (obj_id o) o) (trackableObjects fa !! obj_id o) in
  let track_obj := set_geometry (obj_bbox o) (obj_facial5points o) track_obj in
  '(track_obj, seen, rec) ← identify fa o track_obj;
  let track_obj := set_age_gender (obj_age o) (obj_gender o) track_obj in
  let track_obj := eye_update eye_openness_data (obj_eye_time o) track_obj in
  mret (set_sightings seen rec
          (set_trackableObjects (<[obj_id o := track_obj]> (trackableObjects fa)) fa)).

Fixpoint process_objects (eye_opennesses : option EyeOpennesses)
    (fa : FaceAnalysis) (objects : list TrackedObject) : outcome FaceAnalysis :=
  match objects with
  | [] => mret fa
  | o :: rest =>
      fa' ← process_object eye_opennesses fa o;
      process_objects eye_opennesses fa' rest
  end.

(* "for _, track_obj in self.trackableObjects.items(): track_obj.live = False" *)
Definition mark_not_live (fa : FaceAnalysis) : FaceAnalysis :=
  set_trackableObjects (set_live false <$> trackableObjects fa) fa.

(* the dead_objects loops: every record that is not live is deleted *)
Definition remove_dead (fa : FaceAnalysis) : FaceAnalysis :=
  set_trackableObjects
    (filter (λ kv : Z * TrackableObject, live kv.2 = true) (trackableObjects fa)) fa.

(* FaceAnalysis.get with tracking enabled, from the tracker's output on *)
Definition get (fa : FaceAnalysis) (eye_opennesses : option EyeOpennesses)
    (objects : list TrackedObject) : outcome FaceAnalysis :=
  fa' ← process_objects eye_opennesses (mark_not_live fa) objects;
  mret (remove_dead fa').

(* a run of get over successive frames *)
Fixpoint run_frames (fa : FaceAnalysis)
    (frames : list (option EyeOpennesses * list TrackedObject))
    : outcome FaceAnalysis :=
  match frames with
  | [] => mret fa
  | (eo, objects) :: rest =>
      fa' ← get fa eo objects;
      run_frames fa' rest
  end.


(* the dictionary find_face builds for a person above the threshold *)
Definition candidate (thresh : Q) (embedding : Embedding) (person : KnownPerson)
    : option Match :=
  let score := similarity (kp_embedding person) embedding in
  if Qltb thresh score
  then Some (mkMatch (kp_name person) (round2 score) (kp_pinfl person)
                     (kp_image_path person))
  else None.

(* ===================================================================== *)
(* Properties                                                            *)
(* ===================================================================== *)

(* a lookup after an insertion, at the written key or at another one *)
Ltac insert_cases i j H :=
  destruct (decide (i = j)) as [->|?];
  [rewrite lookup_insert_eq in H | rewrite lookup_insert_ne in H by done].

Lemma Qltb_lt a b : Qltb a b = true ↔ (a < b)%Q.
Proof. unfold Qltb, Qlt. apply Z.ltb_lt. Qed.

Lemma Qltb_ge a b : Qltb a b = false ↔ (b <= a)%Q.
Proof. unfold Qltb, Qle. apply Z.ltb_ge. Qed.

Lemma Qgeb_ge a b : Qgeb a b = true ↔ (b <= a)%Q.
Proof. unfold Qgeb. apply Qle_bool_iff. Qed.


(* --------------------------------------------------------------------- *)
(* update_person_timer                                                   *)
(* --------------------------------------------------------------------- *)

Lemma update_person_timer_skip timers person_name current_time is_timer_paused :
  ¬ valid_name person_name →
  update_person_timer timers person_name current_time is_timer_paused = (timers, 0%Z).
Proof.
  intros Hn. unfold update_person_timer.
  destruct (decide (person_name = "unknown")) as [->|H1]; [reflexivity|].
  destruct (decide (person_name = "")) as [->|H2]; [reflexivity|].
  exfalso. apply Hn. by split.
Qed.

Lemma update_person_timer_known timers person_name current_time is_timer_paused t :
  valid_name person_name →
  timers !! person_name = Some t →
  update_person_timer timers person_name current_time is_timer_paused =
    if Qltb RESET_THRESHOLD (current_time - last_seen t)
    then (<[person_name := new_timer current_time]> timers, 0%Z)
    else
      let r := if is_timer_paused
               then pause_branch current_time (set_last_seen current_time t)
               else run_branch current_time (set_last_seen current_time t) in
      (<[person_name := r.1]> timers, r.2).
Proof.
  intros [H1 H2] Ht. unfold update_person_timer.
  rewrite (bool_decide_eq_false_2 _ H1), (bool_decide_eq_false_2 _ H2), Ht. simpl.
  destruct (Qltb _ _); [reflexivity|].
  by destruct is_timer_paused.
Qed.

Lemma update_person_timer_new timers person_name current_time is_timer_paused :
  valid_name person_name →
  timers !! person_name = None →
  update_person_timer timers person_name current_time is_timer_paused =
    (<[person_name := new_timer current_time]> timers, 0%Z).
Proof.
  intros [H1 H2] Ht. unfold update_person_timer.
  by rewrite (bool_decide_eq_false_2 _ H1), (bool_decide_eq_false_2 _ H2), Ht.
Qed.

Lemma pause_branch_keeps_accumulated current_time t :
  accumulated_time t = Some 0%Z →
  accumulated_time (pause_branch current_time t).1 = Some 0%Z ∧
  (pause_branch current_time t).2 = 0%Z.
Proof.
  intros H. unfold pause_branch. destruct t as [fs ls [p|] acc]; simpl in *; subst; done.
Qed.

Lemma run_branch_keeps_accumulated current_time t :
  accumulated_time (run_branch current_time t).1 = accumulated_time t.
Proof. unfold run_branch. by destruct t as [fs ls [p|] acc]. Qed.

Lemma reachable_timers_entries timers :
  reachable_timers timers →
  ∀ person_name t, timers !! person_name = Some t → timer_entry_ok person_name t.
Proof.
  induction 1 as [|timers n now paused Hr IH]; intros k t Hk.
  - by rewrite lookup_empty in Hk.
  - destruct (decide (valid_name n)) as [Hv|Hv].
    2:{ rewrite update_person_timer_skip in Hk by done. by apply IH. }
    destruct (timers !! n) as [t0|] eqn:Hn.
    + rewrite (update_person_timer_known _ _ _ _ t0) in Hk by done.
      destruct (IH _ _ Hn) as [_ Hacc].
      destruct (Qltb _ _); simpl in Hk; insert_cases n k Hk;
        try (by apply IH); simplify_eq; [done|].
      split; [done|]. destruct paused.
      * by apply pause_branch_keeps_accumulated.
      * by rewrite run_branch_keeps_accumulated.
    + rewrite update_person_timer_new in Hk by done. simpl in Hk.
      insert_cases n k Hk; [by simplify_eq|by apply IH].
Qed.

(* On every reachable PERSON_TIMERS a paused call inside the absence gap
   returns 0: the entry always holds the key 'accumulated_time', so the
   snapshot under "not in" is never taken. *)
Lemma pause_returns_zero timers person_name t current_time :
  reachable_timers timers →
  timers !! person_name = Some t →
  (current_time - last_seen t <= RESET_THRESHOLD)%Q →
  (update_person_timer timers person_name current_time true).2 = 0%Z ∧
  ∃ t', (update_person_timer timers person_name current_time true).1 !! person_name
          = Some t' ∧
        accumulated_time t' = Some 0%Z ∧
        paused_at t' = Some (default current_time (paused_at t)).
Proof.
  intros Hr Ht Hgap.
  destruct (reachable_timers_entries _ Hr _ _ Ht) as [Hv Hacc].
  rewrite (update_person_timer_known _ _ _ _ t) by done.
  apply Qltb_ge in Hgap. rewrite Hgap. cbv zeta. cbn [fst snd].
  destruct (pause_branch_keeps_accumulated current_time
              (set_last_seen current_time t) Hacc) as [Ha Hz].
  split; [exact Hz|].
  eexists. rewrite lookup_insert_eq. split; [reflexivity|]. split; [exact Ha|].
  unfold pause_branch. destruct t as [fs ls [p|] acc]; simpl in *; subst; done.
Qed.

(** C1 (code evaluated at the failing input): an identity first seen at
    time 0 and paused at time 5, inside the absence gap and with paused_at
    still null, gets paused_at = 5 but accumulated_time stays 0 and the
    call returns 0, not the 5 elapsed seconds; a later paused call at time
    7 returns 0 again. *)
Theorem C1_pause_snapshot_not_taken :
  let m1 := (update_person_timer ∅ "alice" 0 false).1 in
  let r2 := update_person_timer m1 "alice" 5 true in
  let r3 := update_person_timer r2.1 "alice" 7 true in
  m1 !! "alice" = Some (mkTimer 0 0 None (Some 0%Z)) ∧
  r2.2 = 0%Z ∧
  r2.1 !! "alice" = Some (mkTimer 0 5 (Some 5%Q) (Some 0%Z)) ∧
  py_int (5 - 0) = 5%Z ∧
  r3.2 = 0%Z ∧
  r3.1 !! "alice" = Some (mkTimer 0 7 (Some 5%Q) (Some 0%Z)).
Proof. vm_compute. repeat split; reflexivity. Qed.



(* --------------------------------------------------------------------- *)
(* match_eye_openness                                                    *)
(* --------------------------------------------------------------------- *)

Lemma py_max_ge a b : (a <= py_max a b ∧ b <= py_max a b)%Q.
Proof.
  unfold py_max. destruct (Qltb a b) eqn:E.
  - apply Qltb_lt in E. split; lra.
  - apply Qltb_ge in E. split; lra.
Qed.

Lemma py_min_le a b : (py_min a b <= a ∧ py_min a b <= b)%Q.
Proof.
  unfold py_min. destruct (Qltb b a) eqn:E.
  - apply Qltb_lt in E. split; lra.
  - apply Qltb_ge in E. split; lra.
Qed.

Lemma Qmult_le_mono a b c d :
  (0 <= a → a <= b → 0 <= c → c <= d → a * c <= b * d)%Q.
Proof.
  intros Ha Hab Hc Hcd.
  apply Qle_trans with (b * c)%Q.
  - apply Qmult_le_compat_r; assumption.
  - rewrite (Qmult_comm b c), (Qmult_comm b d).
    apply Qmult_le_compat_r; [assumption|]. lra.
Qed.

(* inside the test, both boxes have positive area and the union is at
   least as large as the intersection *)
Lemma intersect_areas a b :
  boxes_intersect a b = true →
  (0 < inter_area a b ∧ inter_area a b <= box_area a ∧
   inter_area a b <= box_area b ∧ 0 < union_area a b)%Q.
Proof.
  destruct a as [[[x1 y1] x2] y2], b as [[[ex1 ey1] ex2] ey2].
  unfold boxes_intersect, union_area, inter_area, inter_box, box_area.
  intros H. apply andb_true_iff in H as [Hx Hy].
  apply Qltb_lt in Hx, Hy.
  destruct (py_max_ge x1 ex1) as [? ?], (py_max_ge y1 ey1) as [? ?].
  destruct (py_min_le x2 ex2) as [? ?], (py_min_le y2 ey2) as [? ?].
  set (ix1 := py_max x1 ex1) in *. set (iy1 := py_max y1 ey1) in *.
  set (ix2 := py_min x2 ex2) in *. set (iy2 := py_min y2 ey2) in *.
  assert (Hi : (0 < (ix2 - ix1) * (iy2 - iy1))%Q).
  { apply Qmult_lt_0_compat; lra. }
  assert (Ha : ((ix2 - ix1) * (iy2 - iy1) <= (x2 - x1) * (y2 - y1))%Q).
  { apply Qmult_le_mono; lra. }
  assert (Hb : ((ix2 - ix1) * (iy2 - iy1) <= (ex2 - ex1) * (ey2 - ey1))%Q).
  { apply Qmult_le_mono; lra. }
  repeat split; try assumption. lra.
Qed.


Lemma pair_iou_entry bbox face_data :
  pair_iou bbox face_data = Returned (fst <$> iou_entry bbox face_data).
Proof.
  unfold iou_entry.
  pose proof (intersect_areas bbox (fd_bbox face_data)) as Hpos.
  unfold pair_iou, boxes_intersect, union_area, inter_area, inter_box, box_area in *.
  destruct bbox as [[[x1 y1] x2] y2], (fd_bbox face_data) as [[[ex1 ey1] ex2] ey2].
  destruct (Qltb (py_max x1 ex1) (py_min x2 ex2) && Qltb (py_max y1 ey1) (py_min y2 ey2));
    [|reflexivity].
  destruct (Hpos eq_refl) as (_ & _ & _ & Hu).
  unfold py_div.
  destruct (Qeq_bool _ 0) eqn:E; [|reflexivity].
  apply Qeq_bool_iff in E. rewrite E in Hu. lra.
Qed.

Lemma iou_entry_snd bbox fd q d : iou_entry bbox fd = Some (q, d) → d = fd.
Proof. unfold iou_entry. destruct (boxes_intersect _ _); congruence. Qed.

Lemma collect_ious_entries bbox fds :
  collect_ious bbox fds = Returned (omap (iou_entry bbox) fds).
Proof.
  induction fds as [|fd fds IH]; [reflexivity|].
  cbn [collect_ious omap list_omap]. rewrite pair_iou_entry, IH.
  destruct (iou_entry bbox fd) as [[q d]|] eqn:E; [|reflexivity].
  apply iou_entry_snd in E. by subst.
Qed.


Lemma omap_split {A B} (f : A → option B) (l : list A) (l1 l2 : list B) (y : B) :
  omap f l = l1 ++ y :: l2 →
  ∃ k1 x k2, l = k1 ++ x :: k2 ∧ omap f k1 = l1 ∧ f x = Some y ∧ omap f k2 = l2.
Proof.
  revert l1. induction l as [|a l IH]; intros l1 H.
  - by destruct l1.
  - cbn [omap list_omap] in H. destruct (f a) as [b|] eqn:Ea.
    + destruct l1 as [|b1 l1]; simpl in H; injection H as -> Hl.
      * exists [], a, l. by repeat split.
      * destruct (IH _ Hl) as (k1 & x & k2 & -> & H1 & Hx & H2).
        exists (a :: k1), x, k2. repeat split; try done.
        cbn [omap list_omap]. by rewrite Ea, H1.
    + destruct (IH _ H) as (k1 & x & k2 & -> & H1 & Hx & H2).
      exists (a :: k1), x, k2. repeat split; try done.
      cbn [omap list_omap]. by rewrite Ea.
Qed.





(* --------------------------------------------------------------------- *)
(* Eye-closure bookkeeping                                               *)
(* --------------------------------------------------------------------- *)

Lemma eye_update_unmatched current_time t :
  eye_update None current_time t = set_eyes "unknown" "unknown" t.
Proof. reflexivity. Qed.

(* a matched frame with an eye closed *)
Lemma eye_update_closed d current_time t :
  any_eye_closed d = true →
  let t' := eye_update (Some d) current_time t in
  last_eye_check_time t' = Some current_time ∧
  cumulative_closed_time t' =
    (cumulative_closed_time t
     + (current_time - default current_time (last_eye_check_time t)))%Q ∧
  timer_paused t' = Qgeb (cumulative_closed_time t') 3 || timer_paused t.
Proof.
  unfold any_eye_closed, eye_update. intros ->.
  destruct t as [i b k lv lc rc n p s ip a g le re c tp [l|]]; cbn;
    destruct (Qgeb _ 3) eqn:E; cbn; rewrite ?E; done.
Qed.

(* a matched frame with both eyes open *)
Lemma eye_update_open d current_time t :
  fd_left_eye_open d = true → fd_right_eye_open d = true →
  let t' := eye_update (Some d) current_time t in
  last_eye_check_time t' = Some current_time ∧
  cumulative_closed_time t' = 0%Q ∧
  timer_paused t' = false ∧
  left_eye_open t' = "Open" ∧ right_eye_open t' = "Open".
Proof.
  unfold eye_update. intros -> ->.
  by destruct t as [i b k lv lc rc n p s ip a g le re c [|] [l|]].
Qed.

(* the fields eye_update leaves alone *)
Lemma eye_update_other_fields d current_time t :
  let t' := eye_update d current_time t in
  objectID t' = objectID t ∧ bbox t' = bbox t ∧ kps t' = kps t ∧
  live t' = live t ∧ lost_count t' = lost_count t ∧
  recognized t' = recognized t ∧ name t' = name t ∧ pinfl t' = pinfl t ∧
  score t' = score t ∧ image_path t' = image_path t ∧
  age t' = age t ∧ gender t' = gender t.
Proof.
  unfold eye_update. destruct d as [d|]; [|done].
  destruct t as [i b k lv lc rc n p s ip a g le re c [|] [l|]]; cbn;
    destruct (negb _ || negb _); cbn; try done;
    destruct (Qgeb _ 3); done.
Qed.

Lemma final_time_cons start f frames :
  final_time start (f :: frames) = final_time f.2 frames.
Proof. reflexivity. Qed.

(* a run of matched frames with an eye closed, after a first check at l *)
Lemma closed_run frames : ∀ t l,
  last_eye_check_time t = Some l →
  Forall (λ f, any_eye_closed f.1 = true) frames →
  let t' := foldl eye_step t frames in
  last_eye_check_time t' = Some (final_time l frames) ∧
  (cumulative_closed_time t'
   == cumulative_closed_time t + (final_time l frames - l))%Q ∧
  (timer_paused t = true → timer_paused t' = true) ∧
  (frames ≠ [] → (3 <= cumulative_closed_time t')%Q → timer_paused t' = true).
Proof.
  induction frames as [|[d now] frames IH]; intros t l Hl Hall; cbn [foldl].
  - cbn. repeat split; try done. ring.
  - apply Forall_cons in Hall as [Hd Hall]. cbn [fst] in Hd.
    destruct (eye_update_closed d now t Hd) as (Hl' & Hc & Hp).
    rewrite Hl in Hc. cbn [default] in Hc.
    unfold eye_step at 2. cbn [fst snd].
    set (t1 := eye_update (Some d) now t) in *.
    destruct (IH t1 now Hl' Hall) as (IHl & IHc & IHp & IH3).
    rewrite final_time_cons. cbn [snd].
    split; [exact IHl|].
    split; [eapply Qeq_trans; [exact IHc|]; rewrite Hc; unfold id; ring|]. split.
    + intros Htp. apply IHp. rewrite Hp, Htp. apply orb_true_r.
    + intros _ H3. destruct frames as [|f frames].
      * change (timer_paused t1 = true).
        change (3 <= cumulative_closed_time t1)%Q in H3.
        rewrite Hp. apply Qgeb_ge in H3. by rewrite H3.
      * by apply IH3.
Qed.

(** C3: a track that has a matched detection with at least one eye closed
    in every frame of a run whose closure checks span at least 3 seconds
    (3.1 in particular) ends the run with timer_paused true and
    cumulative_closed_time >= 3.0; and on any track, whatever its state, a
    matched frame with both eyes open sets cumulative_closed_time to 0 and
    timer_paused to false. *)
Theorem C3_closure_debounce :
  (∀ t d1 t1 frames,
     (0 <= cumulative_closed_time t)%Q →
     match last_eye_check_time t with Some l => (l <= t1)%Q | None => True end →
     Forall (λ f, any_eye_closed f.1 = true) ((d1, t1) :: frames) →
     (3 <= final_time t1 frames - t1)%Q →
     let t' := foldl eye_step t ((d1, t1) :: frames) in
     timer_paused t' = true ∧ (3 <= cumulative_closed_time t')%Q ∧
     ∀ d current_time,
       fd_left_eye_open d = true → fd_right_eye_open d = true →
       cumulative_closed_time (eye_update (Some d) current_time t') = 0%Q ∧
       timer_paused (eye_update (Some d) current_time t') = false) ∧
  (∀ t d current_time,
     fd_left_eye_open d = true → fd_right_eye_open d = true →
     cumulative_closed_time (eye_update (Some d) current_time t) = 0%Q ∧
     timer_paused (eye_update (Some d) current_time t) = false).
Proof.
  assert (Hopen : ∀ t d current_time,
     fd_left_eye_open d = true → fd_right_eye_open d = true →
     cumulative_closed_time (eye_update (Some d) current_time t) = 0%Q ∧
     timer_paused (eye_update (Some d) current_time t) = false).
  { intros t d now Hl Hr.
    destruct (eye_update_open d now t Hl Hr) as (_ & Hc & Hp & _). by split. }
  split; [|exact Hopen].
  intros t d1 t1 frames Hc0 Hmono Hall Hspan t'.
  split; [|split]; [| |intros; by apply Hopen].
  all: subst t'; cbn [foldl]; unfold eye_step at 2; cbn [fst snd].
  all: apply Forall_cons in Hall as [Hd1 Hall]; cbn [fst] in Hd1.
  all: destruct (eye_update_closed d1 t1 t Hd1) as (Hl1 & Hc1 & Hp1).
  all: set (s1 := eye_update (Some d1) t1 t) in *.
  all: destruct (closed_run frames s1 t1 Hl1 Hall) as (_ & Hcum & Hkeep & H3).
  all: assert (Hs1 : (0 <= cumulative_closed_time s1)%Q)
         by (rewrite Hc1; revert Hmono; destruct (last_eye_check_time t);
             unfold default, from_option, id; intros; lra).
  all: assert (Hfin : (3 <= cumulative_closed_time (foldl eye_step s1 frames))%Q)
         by (rewrite Hcum; lra).
  - destruct frames as [|f frames].
    + cbn in Hspan. lra.
    + by apply H3.
  - exact Hfin.
Qed.

(* --------------------------------------------------------------------- *)
(* seen_people and record_people                                         *)
(* --------------------------------------------------------------------- *)

Lemma record_sighting_returns person_name cur seen rec :
  sightings_ok seen rec →
  ∃ seen', record_sighting person_name cur seen rec
             = Returned (seen', <[person_name := cur]> rec) ∧
           sightings_ok seen' (<[person_name := cur]> rec) ∧
           (seen' !! person_name ≠ seen !! person_name →
            match rec !! person_name with
            | Some last => (15 < cur - last)%Q
            | None => True
            end).
Proof.
  intros Hok. unfold record_sighting.
  assert (Hins : ∀ v seen0, (∀ n, is_Some (seen !! n) → is_Some (seen0 !! n)) →
            is_Some (seen0 !! person_name) →
            sightings_ok seen0 (<[person_name := v]> rec)).
  { intros v seen0 Hmono Hn n Hs. destruct (decide (person_name = n)) as [<-|Hne]; [done|].
    rewrite lookup_insert_ne in Hs by done. apply Hmono, Hok, Hs. }
  destruct (rec !! person_name) as [last|] eqn:Er.
  - destruct (Hok person_name) as [c Hc]; [by rewrite Er|]. rewrite Hc.
    destruct (Qltb 15 (cur - last)) eqn:E; cbn.
    + eexists. split; [reflexivity|]. split.
      * apply Hins; [|by rewrite lookup_insert_eq].
        intros n Hs. destruct (decide (person_name = n)) as [<-|Hne];
          [by rewrite lookup_insert_eq|by rewrite lookup_insert_ne].
      * intros _. by apply Qltb_lt.
    + eexists. split; [reflexivity|]. split; [|done].
      apply Hins; [done|by rewrite Hc].
  - cbn. eexists. split; [reflexivity|]. split; [|done].
    apply Hins; [|by rewrite lookup_insert_eq].
    intros n Hs. destruct (decide (person_name = n)) as [<-|Hne];
      [by rewrite lookup_insert_eq|by rewrite lookup_insert_ne].
Qed.

(* a recognition at most 15 seconds after the previous one of the same
   name only moves the record_people entry *)
Lemma record_sighting_within_window person_name last cur seen rec :
  rec !! person_name = Some last →
  (cur - last <= 15)%Q →
  record_sighting person_name cur seen rec
    = Returned (seen, <[person_name := cur]> rec).
Proof.
  intros Hr Hle. unfold record_sighting. rewrite Hr.
  apply Qltb_ge in Hle. by rewrite Hle.
Qed.

Lemma sighting_increments_spec events : ∀ seen rec,
  sightings_ok seen rec →
  StronglySorted Qle events.*2 →
  (∀ n last, rec !! n = Some last → Forall (λ e, (last <= e.2)%Q) events) →
  ∃ log, sighting_increments events seen rec = Returned log ∧
    (∀ n last t, rec !! n = Some last → (n, t) ∈ log → (15 < t - last)%Q) ∧
    (∀ l1 l2 l3 n ti tj,
       log = l1 ++ (n, ti) :: l2 ++ (n, tj) :: l3 → (15 < tj - ti)%Q).
Proof.
  induction events as [|[n cur] rest IH]; intros seen rec Hok Hsort Hlast.
  - exists []. split; [reflexivity|]. split.
    + intros ???? Hin. by apply elem_of_nil in Hin.
    + intros [|??] ????? Heq; discriminate Heq.
  - cbn [sighting_increments].
    destruct (record_sighting_returns n cur seen rec Hok) as (seen' & -> & Hok' & Hinc).
    cbn. rewrite fmap_cons in Hsort.
    apply StronglySorted_inv in Hsort as [Hsort Hhd]. cbn [snd] in Hhd.
    rewrite Forall_fmap in Hhd.
    destruct (IH seen' (<[n := cur]> rec) Hok' Hsort) as (log & -> & Hrec & Hsep).
    { intros m last Hm. destruct (decide (n = m)) as [<-|Hne].
      - rewrite lookup_insert_eq in Hm. injection Hm as <-.
        exact Hhd.
      - rewrite lookup_insert_ne in Hm by done.
        specialize (Hlast _ _ Hm). by apply Forall_cons in Hlast as [_ ?]. }
    cbn.
    assert (Hrec0 : ∀ m last t, rec !! m = Some last → (m, t) ∈ log → (15 < t - last)%Q).
    { intros m last t Hm Hin. destruct (decide (n = m)) as [<-|Hne].
      - assert (15 < t - cur)%Q by (apply (Hrec n); [by rewrite lookup_insert_eq|done]).
        specialize (Hlast _ _ Hm). apply Forall_cons in Hlast as [Hle _].
        cbn in Hle. lra.
      - apply (Hrec m); [by rewrite lookup_insert_ne|done]. }
    destruct (bool_decide (seen' !! n = seen !! n)) eqn:Eb.
    + eexists. split; [reflexivity|]. by split.
    + apply bool_decide_eq_false in Eb. specialize (Hinc Eb).
      eexists. split; [reflexivity|]. split.
      * intros m last t Hm [Heq|Hin]%elem_of_cons; [|by eapply Hrec0].
        simplify_eq. by rewrite Hm in Hinc.
      * intros [|x l1] l2 l3 m ti tj Heq; cbn in Heq; simplify_eq.
        -- apply (Hrec m); [by rewrite lookup_insert_eq|].
           apply elem_of_app. right. by left.
        -- by eapply Hsep.
Qed.

(** C7: along any run of recognitions read on a non-decreasing clock,
    starting from the empty counters, the seen_people counter of a name is
    incremented at times more than 15 seconds apart (any two increments for
    the same name are separated by more than 15 seconds), and a recognition
    at most 15 seconds after the previous recognition of the same name
    leaves seen_people unchanged. *)
Theorem C7_sightings_window :
  (∀ events,
     StronglySorted Qle events.*2 →
     ∃ log, sighting_increments events ∅ ∅ = Returned log ∧
       ∀ l1 l2 l3 n ti tj,
         log = l1 ++ (n, ti) :: l2 ++ (n, tj) :: l3 → (15 < tj - ti)%Q) ∧
  (∀ person_name last cur seen rec,
     rec !! person_name = Some last →
     (cur - last <= 15)%Q →
     record_sighting person_name cur seen rec
       = Returned (seen, <[person_name := cur]> rec)).
Proof.
  split.
  - intros events Hsort.
    destruct (sighting_increments_spec events ∅ ∅) as (log & Hlog & _ & Hsep).
    + intros n [? Hn]. by rewrite lookup_empty in Hn.
    + exact Hsort.
    + intros n last Hn. by rewrite lookup_empty in Hn.
    + by exists log.
  - apply record_sighting_within_window.
Qed.

(* --------------------------------------------------------------------- *)
(* The per-object body and the reconciliation pass                       *)
(* --------------------------------------------------------------------- *)

Lemma match_eye_openness_returns eye_opennesses b :
  ∃ d, match_eye_openness eye_opennesses b = Returned d.
Proof.
  destruct eye_opennesses as [[[fds|]]|]; unfold match_eye_openness; cbn [faces_data];
    try (eexists; reflexivity).
  rewrite collect_ious_entries. eexists. reflexivity.
Qed.

Lemma identify_spec fa o t :
  sightings_ok (seen_people fa) (record_people fa) →
  ∃ t' seen rec,
    identify fa o t = Returned (t', seen, rec) ∧
    sightings_ok seen rec ∧
    same_tracking_fields t t' ∧
    (recognized t = true →
       t' = t ∧ seen = seen_people fa ∧ rec = record_people fa) ∧
    (recognized t = false → recognized t' = Qltb 0 (score t')).
Proof.
  intros Hok. unfold identify.
  destruct (recognized t) eqn:Hrec.
  { exists t, (seen_people fa), (record_people fa). by repeat split. }
  assert (Hfin : ∀ t1 seen rec,
    sightings_ok seen rec → same_tracking_fields t t1 → recognized t1 = false →
    ∃ t' seen' rec',
      (mret (if Qltb 0 (score t1) then set_recognized true t1 else t1, seen, rec)
         : outcome _) = Returned (t', seen', rec') ∧
      sightings_ok seen' rec' ∧ same_tracking_fields t t' ∧
      (false = true → t' = t ∧ seen' = seen_people fa ∧ rec' = record_people fa) ∧
      (false = false → recognized t' = Qltb 0 (score t'))).
  { intros t1 seen rec Hs Hf Hr. eexists _, seen, rec. split; [reflexivity|].
    split; [done|]. destruct (Qltb 0 (score t1)) eqn:E; cbn.
    - by rewrite E.
    - by rewrite E, Hr. }
  assert (Hsame : same_tracking_fields t t) by by repeat split.
  destruct (find_face _ _ _) as [p|]; cbn; [|by apply Hfin].
  destruct (Qltb (score t) (m_score p)); cbn; [|by apply Hfin].
  destruct (record_sighting_returns (m_name p) (obj_seen_time o) _ _ Hok)
    as (seen' & -> & Hok' & _).
  cbn. by apply (Hfin (set_identity p t)).
Qed.

Lemma process_object_spec eye_opennesses fa o :
  sightings_ok (seen_people fa) (record_people fa) →
  let t0 := default (new_TrackableObject (obj_id o) o)
                    (trackableObjects fa !! obj_id o) in
  ∃ d ti seen rec,
    match_eye_openness eye_opennesses (obj_bbox o) = Returned d ∧
    identify fa o (set_geometry (obj_bbox o) (obj_facial5points o) t0)
      = Returned (ti, seen, rec) ∧
    sightings_ok seen rec ∧
    process_object eye_opennesses fa o =
      Returned
        (set_sightings seen rec
           (set_trackableObjects
              (<[obj_id o :=
                   eye_update d (obj_eye_time o)
                     (set_age_gender (obj_age o) (obj_gender o) ti)]>
                 (trackableObjects fa)) fa)).
Proof.
  intros Hok t0.
  destruct (match_eye_openness_returns eye_opennesses (obj_bbox o)) as [d Hd].
  destruct (identify_spec fa o
              (set_geometry (obj_bbox o) (obj_facial5points o) t0) Hok)
    as (ti & seen & rec & Hi & Hok' & _).
  exists d, ti, seen, rec. repeat split; try done.
  unfold process_object. rewrite Hd. cbn. fold t0. by rewrite Hi.
Qed.

(* what one tracker-confirmed object leaves in the registry *)
Lemma process_object_record eye_opennesses fa o :
  sightings_ok (seen_people fa) (record_people fa) →
  let t0 := default (new_TrackableObject (obj_id o) o)
                    (trackableObjects fa !! obj_id o) in
  ∃ fa' t' d,
    process_object eye_opennesses fa o = Returned fa' ∧
    match_eye_openness eye_opennesses (obj_bbox o) = Returned d ∧
    sightings_ok (seen_people fa') (record_people fa') ∧
    trackableObjects fa' = <[obj_id o := t']> (trackableObjects fa) ∧
    known_people fa' = known_people fa ∧ rec_thresh fa' = rec_thresh fa ∧
    live t' = true ∧
    cumulative_closed_time t' = cumulative_closed_time (eye_update d (obj_eye_time o) t0) ∧
    timer_paused t' = timer_paused (eye_update d (obj_eye_time o) t0) ∧
    last_eye_check_time t' = last_eye_check_time (eye_update d (obj_eye_time o) t0) ∧
    left_eye_open t' = left_eye_open (eye_update d (obj_eye_time o) t0) ∧
    right_eye_open t' = right_eye_open (eye_update d (obj_eye_time o) t0) ∧
    (recognized t0 = true →
       same_identity t0 t' ∧
       seen_people fa' = seen_people fa ∧ record_people fa' = record_people fa) ∧
    (recognized t0 = false → recognized t' = Qltb 0 (score t')).
Proof.
  intros Hok t0.
  destruct (process_object_spec eye_opennesses fa o Hok)
    as (d & ti & seen & rec & Hd & Hi & Hok' & Hp).
  fold t0 in Hi.
  destruct (identify_spec fa o
              (set_geometry (obj_bbox o) (obj_facial5points o) t0) Hok)
    as (ti' & seen' & rec' & Hi' & _ & Hsame & Hrec & Hnrec).
  rewrite Hi in Hi'. injection Hi' as <- <- <-.
  destruct Hsame as (_ & _ & _ & Hlive & _ & Hc & Htp & Hl).
  eexists _, _, d. split; [exact Hp|]. split; [exact Hd|].
  cbn [seen_people record_people trackableObjects known_people rec_thresh
       set_sightings set_trackableObjects].
  split; [done|]. split; [reflexivity|]. split; [reflexivity|]. split; [reflexivity|].
  set (ta := set_age_gender (obj_age o) (obj_gender o) ti).
  destruct (eye_update_other_fields d (obj_eye_time o) ta)
    as (_ & _ & _ & Hlv & _ & Hr & Hn & Hpi & Hs & Hip & _).
  assert (Heye : ∀ a b : TrackableObject,
    cumulative_closed_time a = cumulative_closed_time b →
    timer_paused a = timer_paused b →
    last_eye_check_time a = last_eye_check_time b →
    cumulative_closed_time (eye_update d (obj_eye_time o) a)
      = cumulative_closed_time (eye_update d (obj_eye_time o) b) ∧
    timer_paused (eye_update d (obj_eye_time o) a)
      = timer_paused (eye_update d (obj_eye_time o) b) ∧
    last_eye_check_time (eye_update d (obj_eye_time o) a)
      = last_eye_check_time (eye_update d (obj_eye_time o) b) ∧
    left_eye_open (eye_update d (obj_eye_time o) a)
      = left_eye_open (eye_update d (obj_eye_time o) b) ∧
    right_eye_open (eye_update d (obj_eye_time o) a)
      = right_eye_open (eye_update d (obj_eye_time o) b)).
  { intros a b H1 H2 H3. unfold eye_update. destruct d as [d|]; [|done].
    destruct a as [? ? ? ? ? ? ? ? ? ? ? ? ? ? ca pa la],
             b as [? ? ? ? ? ? ? ? ? ? ? ? ? ? cb pb lb].
    cbn in H1, H2, H3. subst. cbn.
    destruct lb as [l|]; cbn; destruct (negb _ || negb _); cbn;
      try (destruct (Qgeb _ 3); cbn); try destruct pb; done. }
  destruct (Heye ta t0) as (E1 & E2 & E3 & E4 & E5); [done..|].
  split; [by rewrite Hlv|].
  split; [exact E1|]. split; [exact E2|]. split; [exact E3|].
  split; [exact E4|]. split; [exact E5|]. split.
  - intros Hr0. destruct (Hrec Hr0) as (-> & -> & ->).
    split; [|done]. unfold same_identity. by rewrite Hn, Hpi, Hs, Hip, Hr.
  - intros Hr0. rewrite Hr, Hs. cbn. by apply Hnrec.
Qed.

(** C2 (as the code has it): for a track processed in a frame where
    match_eye_openness finds no detection for its bbox, the closure
    evaluation changes neither cumulative_closed_time nor timer_paused, and
    last_eye_check_time is left as it was too (it is not advanced to the
    current time, so the next closure delta spans the unmatched frames);
    the two eye states are set to "unknown". *)
Theorem C2_unmatched_frame eye_opennesses fa o :
  sightings_ok (seen_people fa) (record_people fa) →
  match_eye_openness eye_opennesses (obj_bbox o) = Returned None →
  let t0 := default (new_TrackableObject (obj_id o) o)
                    (trackableObjects fa !! obj_id o) in
  ∃ fa' t',
    process_object eye_opennesses fa o = Returned fa' ∧
    trackableObjects fa' !! obj_id o = Some t' ∧
    cumulative_closed_time t' = cumulative_closed_time t0 ∧
    timer_paused t' = timer_paused t0 ∧
    last_eye_check_time t' = last_eye_check_time t0 ∧
    left_eye_open t' = "unknown" ∧ right_eye_open t' = "unknown".
Proof.
  intros Hok Hnone t0.
  destruct (process_object_record eye_opennesses fa o Hok)
    as (fa' & t' & d & Hp & Hd & _ & Hreg & _ & _ & _ & Hc & Htp & Hl & Hle & Hre & _).
  rewrite Hnone in Hd. injection Hd as <-.
  exists fa', t'. split; [exact Hp|]. split; [by rewrite Hreg, lookup_insert_eq|].
  by rewrite Hc, Htp, Hl, Hle, Hre.
Qed.

Lemma process_objects_spec eye_opennesses objects : ∀ fa,
  sightings_ok (seen_people fa) (record_people fa) →
  ∃ fa', process_objects eye_opennesses fa objects = Returned fa' ∧
    sightings_ok (seen_people fa') (record_people fa') ∧
    known_people fa' = known_people fa ∧ rec_thresh fa' = rec_thresh fa ∧
    (∀ id, id ∈ confirmed_ids objects →
       ∃ t, trackableObjects fa' !! id = Some t ∧ live t = true) ∧
    (∀ id, id ∉ confirmed_ids objects →
       trackableObjects fa' !! id = trackableObjects fa !! id) ∧
    (∀ id t, trackableObjects fa !! id = Some t → recognized t = true →
       ∃ t', trackableObjects fa' !! id = Some t' ∧ same_identity t t').
Proof.
  induction objects as [|o rest IH]; intros fa Hok.
  - exists fa. split; [reflexivity|]. repeat split; try done.
    + intros id Hin. by apply elem_of_nil in Hin.
    + intros id t Ht _. exists t. by repeat split.
  - cbn [process_objects].
    destruct (process_object_record eye_opennesses fa o Hok)
      as (fa1 & t1 & d & -> & _ & Hok1 & Hreg1 & Hkp1 & Hrt1 & Hlive1 & _ & _ & _ & _ & _
          & Hrec1 & _).
    cbn. destruct (IH fa1 Hok1) as (fa' & -> & Hok' & Hkp & Hrt & Hin & Hout & Hid).
    exists fa'. split; [reflexivity|]. split; [done|].
    split; [congruence|]. split; [congruence|]. split; [|split].
    + intros id Hmem. destruct (decide (id ∈ confirmed_ids rest)) as [Hr|Hr].
      * by apply Hin.
      * apply elem_of_cons in Hmem as [->|?]; [|done].
        rewrite (Hout _ Hr), Hreg1, lookup_insert_eq. by exists t1.
    + intros id Hmem. apply not_elem_of_cons in Hmem as [Hne Hr].
      rewrite (Hout _ Hr), Hreg1. by rewrite lookup_insert_ne.
    + intros id t Ht Hr. destruct (decide (obj_id o = id)) as [Heq|Hne].
      * rewrite Heq, Ht in Hrec1. cbn in Hrec1.
        destruct (Hrec1 Hr) as [Hs1 _].
        destruct (Hid id t1) as (t' & Ht' & Hs').
        { by rewrite Hreg1, Heq, lookup_insert_eq. }
        { destruct Hs1 as (_ & _ & _ & _ & ->). exact Hr. }
        exists t'. split; [done|].
        destruct Hs1 as (? & ? & ? & ? & ?), Hs' as (? & ? & ? & ? & ?).
        repeat split; congruence.
      * apply Hid; [|done]. by rewrite Hreg1, lookup_insert_ne.
Qed.

Lemma get_spec fa eye_opennesses objects :
  sightings_ok (seen_people fa) (record_people fa) →
  ∃ fa', get fa eye_opennesses objects = Returned fa' ∧
    sightings_ok (seen_people fa') (record_people fa') ∧
    (∀ id, is_Some (trackableObjects fa' !! id) ↔ id ∈ confirmed_ids objects) ∧
    (∀ id t, trackableObjects fa' !! id = Some t → live t = true) ∧
    (∀ id t, trackableObjects fa !! id = Some t → recognized t = true →
       id ∈ confirmed_ids objects →
       ∃ t', trackableObjects fa' !! id = Some t' ∧ same_identity t t').
Proof.
  intros Hok. unfold get.
  destruct (process_objects_spec eye_opennesses objects (mark_not_live fa))
    as (fa2 & -> & Hok2 & _ & _ & Hin & Hout & Hid); [done|].
  cbn. exists (remove_dead fa2). split; [reflexivity|]. split; [done|].
  cbn [remove_dead trackableObjects set_trackableObjects].
  split; [|split].
  - intros id. split.
    + intros [t Ht]. apply map_lookup_filter_Some in Ht as [Ht Hlive]. cbn in Hlive.
      destruct (decide (id ∈ confirmed_ids objects)) as [|Hn]; [done|exfalso].
      rewrite (Hout _ Hn) in Ht. cbn in Ht. rewrite lookup_fmap in Ht.
      destruct (trackableObjects fa !! id) as [t0|]; cbn in Ht; [|done].
      injection Ht as <-. by cbn in Hlive.
    + intros Hmem. destruct (Hin _ Hmem) as (t & Ht & Hlive).
      exists t. by apply map_lookup_filter_Some.
  - intros id t Ht. by apply map_lookup_filter_Some in Ht as [_ ?].
  - intros id t Ht Hr Hmem.
    destruct (Hid id (set_live false t)) as (t' & Ht' & Hs).
    { cbn. by rewrite lookup_fmap, Ht. }
    { exact Hr. }
    destruct (Hin _ Hmem) as (t2 & Ht2 & Hlive).
    rewrite Ht' in Ht2. injection Ht2 as <-.
    exists t'. split; [by apply map_lookup_filter_Some|exact Hs].
Qed.


Lemma run_frames_identity frames : ∀ fa id t,
  sightings_ok (seen_people fa) (record_people fa) →
  trackableObjects fa !! id = Some t →
  recognized t = true →
  Forall (λ f, id ∈ confirmed_ids f.2) frames →
  ∃ fa' t', run_frames fa frames = Returned fa' ∧
    trackableObjects fa' !! id = Some t' ∧ same_identity t t'.
Proof.
  induction frames as [|[eo objects] frames IH]; intros fa id t Hok Ht Hr Hall.
  - exists fa, t. by repeat split.
  - apply Forall_cons in Hall as [Hmem Hall]. cbn [snd] in Hmem.
    cbn [run_frames].
    destruct (get_spec fa eo objects Hok) as (fa1 & -> & Hok1 & _ & _ & Hid).
    destruct (Hid id t Ht Hr Hmem) as (t1 & Ht1 & Hs1).
    cbn. destruct (IH fa1 id t1 Hok1 Ht1) as (fa' & t' & -> & Ht' & Hs'); [|done|].
    { destruct Hs1 as (_ & _ & _ & _ & ->). exact Hr. }
    exists fa', t'. split; [reflexivity|]. split; [done|].
    destruct Hs1 as (? & ? & ? & ? & ?), Hs' as (? & ? & ? & ? & ?).
    repeat split; congruence.
Qed.

(** C10: processing a track whose recognized flag is false leaves it
    recognized exactly when its stored score exceeds 0; processing a track
    whose recognized flag is true skips identity resolution, so its name,
    pinfl, score, image_path and recognized flag and the sighting maps are
    unchanged; and over any run of frames in which the tracker keeps
    confirming the track, its identity fields after the run are those it
    had when it was recognized. *)
Theorem C10_recognized_identity_frozen :
  (∀ eye_opennesses fa o,
     sightings_ok (seen_people fa) (record_people fa) →
     let t0 := default (new_TrackableObject (obj_id o) o)
                       (trackableObjects fa !! obj_id o) in
     ∃ fa' t',
       process_object eye_opennesses fa o = Returned fa' ∧
       trackableObjects fa' !! obj_id o = Some t' ∧
       (recognized t0 = false → (recognized t' = true ↔ (0 < score t')%Q)) ∧
       (recognized t0 = true →
          same_identity t0 t' ∧
          seen_people fa' = seen_people fa ∧
          record_people fa' = record_people fa)) ∧
  (∀ frames fa id t,
     sightings_ok (seen_people fa) (record_people fa) →
     trackableObjects fa !! id = Some t →
     recognized t = true →
     Forall (λ f, id ∈ confirmed_ids f.2) frames →
     ∃ fa' t', run_frames fa frames = Returned fa' ∧
       trackableObjects fa' !! id = Some t' ∧
       name t' = name t ∧ pinfl t' = pinfl t ∧ score t' = score t ∧
       image_path t' = image_path t ∧ recognized t' = true).
Proof.
  split.
  - intros eo fa o Hok t0.
    destruct (process_object_record eo fa o Hok)
      as (fa' & t' & d & Hp & _ & _ & Hreg & _ & _ & _ & _ & _ & _ & _ & _ & Hrec & Hnrec).
    exists fa', t'. split; [exact Hp|]. split; [by rewrite Hreg, lookup_insert_eq|].
    split; [|exact Hrec].
    intros Hr0. rewrite (Hnrec Hr0). apply Qltb_lt.
  - intros frames fa id t Hok Ht Hr Hall.
    destruct (run_frames_identity frames fa id t Hok Ht Hr Hall)
      as (fa' & t' & Hrun & Ht' & Hn & Hp & Hs & Hi & Hrc).
    exists fa', t'. repeat split; try done. congruence.
Qed.

(* the sighting maps change only through record_sighting, for the name of
   the accepted match and the clock value read for it *)
Lemma identify_sightings fa o t t' seen rec :
  identify fa o t = Returned (t', seen, rec) →
  (seen = seen_people fa ∧ rec = record_people fa) ∨
  ∃ p, find_face (known_people fa) (rec_thresh fa) (obj_embedding o) = Some p ∧
       recognized t = false ∧ (score t < m_score p)%Q ∧
       record_sighting (m_name p) (obj_seen_time o)
         (seen_people fa) (record_people fa) = Returned (seen, rec).
Proof.
  unfold identify. destruct (recognized t) eqn:Hr.
  { intros [= _ <- <-]. by left. }
  destruct (find_face _ _ _) as [p|]; cbn; [|intros [= _ <- <-]; by left].
  destruct (Qltb (score t) (m_score p)) eqn:E; cbn; [|intros [= _ <- <-]; by left].
  destruct (record_sighting _ _ _ _) as [[seen' rec']|e] eqn:Es; cbn; [|done].
  intros [= _ <- <-]. right. exists p. apply Qltb_lt in E. by repeat split.
Qed.

(* from a state with consistent sighting maps, such as the one __init__
   builds, no run of frames raises *)
Lemma run_frames_returns frames : ∀ fa,
  sightings_ok (seen_people fa) (record_people fa) →
  ∃ fa', run_frames fa frames = Returned fa' ∧
         sightings_ok (seen_people fa') (record_people fa').
Proof.
  induction frames as [|[eo objects] frames IH]; intros fa Hok.
  - by exists fa.
  - cbn [run_frames].
    destruct (get_spec fa eo objects Hok) as (fa1 & -> & Hok1 & _).
    cbn. by apply IH.
Qed.

(* --------------------------------------------------------------------- *)
(* More on update_person_timer                                           *)
(* --------------------------------------------------------------------- *)

Lemma py_int_nonneg x : (0 <= x)%Q → (0 <= py_int x)%Z.
Proof.
  intros Hx. unfold py_int.
  destruct (Qle_bool 0 x) eqn:E.
  - change 0%Z with (Qfloor 0). by apply Qfloor_resp_le.
  - apply Qle_bool_iff in Hx. congruence.
Qed.

Lemma timer_calls_reachable calls : ∀ timers,
  reachable_timers timers → reachable_timers (timer_calls calls timers).1.
Proof.
  induction calls as [|[[n now] p] rest IH]; intros timers Hr; [done|].
  cbn. apply IH. by apply reachable_update.
Qed.

(** X1: PERSON_TIMERS never gets an entry for the name "unknown" or for
    the empty name, whatever calls were made. *)
Theorem X1_ignored_names_never_stored calls :
  (timer_calls calls ∅).1 !! "unknown" = None ∧
  (timer_calls calls ∅).1 !! "" = None.
Proof.
  pose proof (timer_calls_reachable calls ∅ reachable_empty) as Hr.
  split.
  - destruct (_ !! "unknown") as [t|] eqn:E; [|done].
    by destruct (reachable_timers_entries _ Hr _ _ E) as [[? ?] _].
  - destruct (_ !! "") as [t|] eqn:E; [|done].
    by destruct (reachable_timers_entries _ Hr _ _ E) as [[? ?] _].
Qed.

(** X2: a call of update_person_timer for one name leaves the entry of
    every other name as it was, and no entry is ever removed. *)
Theorem X2_other_entries_untouched timers person_name current_time is_timer_paused :
  let timers' :=
    (update_person_timer timers person_name current_time is_timer_paused).1 in
  (∀ other, other ≠ person_name → timers' !! other = timers !! other) ∧
  (∀ n, is_Some (timers !! n) → is_Some (timers' !! n)).
Proof.
  cbv zeta.
  assert (Hshape :
    (update_person_timer timers person_name current_time is_timer_paused).1 = timers ∨
    ∃ t, (update_person_timer timers person_name current_time is_timer_paused).1
           = <[person_name := t]> timers).
  { destruct (decide (valid_name person_name)) as [Hv|Hv].
    - right. destruct (timers !! person_name) as [t|] eqn:E.
      + rewrite (update_person_timer_known _ _ _ _ t) by done.
        destruct (Qltb _ _); cbn; eauto.
      + rewrite update_person_timer_new by done. cbn; eauto.
    - left. by rewrite update_person_timer_skip. }
  destruct Hshape as [->|[t ->]]; [done|]. split.
  - intros other Hne. by rewrite lookup_insert_ne.
  - intros n Hn. destruct (decide (person_name = n)) as [->|Hne].
    + by rewrite lookup_insert_eq.
    + by rewrite lookup_insert_ne.
Qed.

Lemma timer_sane_later now now' t :
  (now <= now')%Q → timer_sane now t → timer_sane now' t.
Proof. intros Hle (H1 & H2 & H3). repeat split; try done. lra. Qed.

(* one call on a clock that does not run backwards *)
Lemma update_person_timer_sane timers person_name current_time is_timer_paused :
  reachable_timers timers →
  (∀ n t, timers !! n = Some t → timer_sane current_time t) →
  let r := update_person_timer timers person_name current_time is_timer_paused in
  (0 <= r.2)%Z ∧ (∀ n t, r.1 !! n = Some t → timer_sane current_time t).
Proof.
  intros Hr Hs r. subst r.
  destruct (decide (valid_name person_name)) as [Hv|Hv].
  2:{ rewrite update_person_timer_skip by done. by split. }
  assert (Hnew : timer_sane current_time (new_timer current_time)).
  { repeat split; cbn; lra. }
  assert (Hins : ∀ t', timer_sane current_time t' →
            ∀ n t, <[person_name := t']> timers !! n = Some t →
                   timer_sane current_time t).
  { intros t' Ht' n t Hn. insert_cases person_name n Hn; [by simplify_eq|by eapply Hs]. }
  destruct (timers !! person_name) as [t|] eqn:E.
  - rewrite (update_person_timer_known _ _ _ _ t) by done.
    destruct (reachable_timers_entries _ Hr _ _ E) as [_ Hacc].
    destruct (Hs _ _ E) as (H1 & H2 & H3).
    destruct (Qltb _ _); cbn [fst snd]; [split; [done|by apply Hins]|].
    cbv zeta. cbn [fst snd]. destruct is_timer_paused.
    + destruct (pause_branch_keeps_accumulated current_time
                  (set_last_seen current_time t) Hacc) as [_ ->].
      split; [done|]. apply Hins.
      unfold pause_branch. destruct t as [fs ls [p|] acc]; cbn in *; subst; cbn.
      * repeat split; cbn; lra.
      * repeat split; cbn; lra.
    + split.
      * apply py_int_nonneg. unfold run_branch.
        destruct t as [fs ls [p|] acc]; cbn in *; lra.
      * apply Hins. unfold run_branch.
        destruct t as [fs ls [p|] acc]; cbn in *; repeat split; cbn; lra.
  - rewrite update_person_timer_new by done. cbn [fst snd].
    split; [done|by apply Hins].
Qed.

Lemma timer_calls_nonneg calls : ∀ timers,
  reachable_timers timers →
  StronglySorted Qle (call_times calls) →
  (∀ n t, timers !! n = Some t →
          Forall (λ now, timer_sane now t) (call_times calls)) →
  Forall (λ r, (0 <= r)%Z) (timer_calls calls timers).2.
Proof.
  induction calls as [|[[n now] p] rest IH]; intros timers Hr Hsort Hs; [constructor|].
  cbn [timer_calls snd]. unfold call_times in Hsort. rewrite fmap_cons in Hsort.
  apply StronglySorted_inv in Hsort as [Hsort Hhd]. cbn [fst snd] in Hhd.
  destruct (update_person_timer_sane timers n now p Hr) as [Hnn Hs'].
  { intros m t Hm. specialize (Hs m t Hm). by apply Forall_cons in Hs as [? _]. }
  constructor; [done|]. apply IH.
  - by apply reachable_update.
  - exact Hsort.
  - intros m t Hm. specialize (Hs' m t Hm).
    eapply Forall_impl; [exact Hhd|]. intros now' Hle. cbn in Hle.
    by eapply timer_sane_later.
Qed.

(** X3: on a clock that never runs backwards, every value returned by
    update_person_timer is non-negative. *)
Theorem X3_elapsed_never_negative calls :
  StronglySorted Qle (call_times calls) →
  Forall (λ r, (0 <= r)%Z) (timer_calls calls ∅).2.
Proof.
  intros Hsort. apply timer_calls_nonneg; [constructor|done|].
  intros n t Hn. by rewrite lookup_empty in Hn.
Qed.






Lemma last_cons_default {A} (a d : A) l : List.last (a :: l) d = List.last l a.
Proof.
  revert a d. induction l as [|b l IH]; intros a d; [done|].
  change (List.last (a :: b :: l) d) with (List.last (b :: l) d).
  by rewrite (IH b d), (IH b a).
Qed.





(* --------------------------------------------------------------------- *)
(* More on match_eye_openness                                            *)
(* --------------------------------------------------------------------- *)

Lemma match_eye_openness_entries bbox fds :
  match_eye_openness (Some (mkEyeOpennesses (Some fds))) bbox =
    Returned
      match omap (iou_entry bbox) fds with
      | [] => None
      | c :: l =>
          if Qltb IOU_THRESHOLD (max_by_iou c l).1 then Some (max_by_iou c l).2
          else None
      end.
Proof.
  unfold match_eye_openness. cbn [faces_data]. rewrite collect_ious_entries.
  by destruct (omap (iou_entry bbox) fds).
Qed.










(** X9: match_eye_openness returns no match, without raising, when
    eye_opennesses is None, when it has no 'faces_data' key, and when no
    detection of faces_data strictly overlaps the track bbox (in particular
    when faces_data is empty). *)
Theorem X9_no_overlap_no_match bbox :
  match_eye_openness None bbox = Returned None ∧
  match_eye_openness (Some (mkEyeOpennesses None)) bbox = Returned None ∧
  match_eye_openness (Some (mkEyeOpennesses (Some []))) bbox = Returned None ∧
  ∀ fds,
    (∀ d, d ∈ fds → boxes_intersect bbox (fd_bbox d) = false) →
    match_eye_openness (Some (mkEyeOpennesses (Some fds))) bbox = Returned None.
Proof.
  repeat split; try reflexivity.
  intros fds Hno. rewrite match_eye_openness_entries.
  destruct (omap (iou_entry bbox) fds) as [|c l] eqn:Eo; [done|].
  assert (Hin : c ∈ omap (iou_entry bbox) fds) by (rewrite Eo; by left).
  apply list_elem_of_omap in Hin as (d & Hd & He).
  unfold iou_entry in He. by rewrite (Hno d Hd) in He.
Qed.

(* --------------------------------------------------------------------- *)
(* find_face and _add_todb                                               *)
(* --------------------------------------------------------------------- *)

Lemma insert_by_score_head x l :
  head (insert_by_score x l) =
    Some match head l with
         | None => x
         | Some y => if Qle_bool (m_score y) (m_score x) then x else y
         end.
Proof. destruct l as [|y l]; [done|]. cbn. by destruct (Qle_bool _ _). Qed.

Lemma sort_by_score_head_cons a l :
  head (sort_by_score (a :: l)) =
    Some match head (sort_by_score l) with
         | None => a
         | Some y => if Qle_bool (m_score y) (m_score a) then a else y
         end.
Proof. unfold sort_by_score. cbn [foldr]. apply insert_by_score_head. Qed.

Lemma sort_by_score_head_None l : head (sort_by_score l) = None ↔ l = [].
Proof.
  destruct l as [|a l]; [done|]. rewrite sort_by_score_head_cons. split; discriminate.
Qed.

(* the entry sorted to the front is the first one of maximal score *)
Lemma sort_by_score_head_first l best :
  head (sort_by_score l) = Some best →
  ∃ l1 l2, l = l1 ++ best :: l2 ∧
    (∀ x, x ∈ l1 → (m_score x < m_score best)%Q) ∧
    (∀ x, x ∈ l2 → (m_score x <= m_score best)%Q).
Proof.
  revert best. induction l as [|a l IH]; intros best; [done|].
  rewrite sort_by_score_head_cons. intros [= H].
  destruct (head (sort_by_score l)) as [y|] eqn:Ey.
  - destruct (IH y eq_refl) as (l1 & l2 & -> & H1 & H2).
    destruct (Qle_bool (m_score y) (m_score a)) eqn:E; subst best.
    + apply Qle_bool_iff in E. exists [], (l1 ++ y :: l2). split; [done|]. split.
      * intros x Hx. by apply elem_of_nil in Hx.
      * intros x [Hx|[->|Hx]%elem_of_cons]%elem_of_app; [|done|].
        -- specialize (H1 x Hx). lra.
        -- specialize (H2 x Hx). lra.
    + assert (m_score a < m_score y)%Q.
      { apply Qnot_le_lt. intros Hle. apply Qle_bool_iff in Hle. congruence. }
      exists (a :: l1), l2. split; [done|]. split; [|done].
      intros x [->|Hx]%elem_of_cons; [done|by apply H1].
  - apply sort_by_score_head_None in Ey. subst l best.
    exists [], []. split; [done|]. split; intros x Hx; by apply elem_of_nil in Hx.
Qed.

Lemma sort_by_score_head_snoc l x :
  head (sort_by_score (l ++ [x])) =
    Some match head (sort_by_score l) with
         | None => x
         | Some b => if Qltb (m_score b) (m_score x) then x else b
         end.
Proof.
  induction l as [|a l IH]; [done|].
  rewrite <- app_comm_cons, !sort_by_score_head_cons, IH. f_equal.
  destruct (head (sort_by_score l)) as [b|].
  - destruct (Qltb (m_score b) (m_score x)) eqn:E1,
             (Qle_bool (m_score b) (m_score a)) eqn:E2;
      [destruct (Qle_bool (m_score x) (m_score a)) eqn:E3;
       destruct (Qltb (m_score a) (m_score x)) eqn:E4
      |destruct (Qle_bool (m_score x) (m_score a)) eqn:E3;
       destruct (Qltb (m_score b) (m_score x)) eqn:E4
      |destruct (Qltb (m_score a) (m_score x)) eqn:E4
      |destruct (Qltb (m_score b) (m_score x)) eqn:E4];
      try reflexivity; exfalso;
      repeat match goal with
             | H : Qltb _ _ = true |- _ => apply Qltb_lt in H
             | H : Qltb _ _ = false |- _ => apply Qltb_ge in H
             | H : Qle_bool _ _ = true |- _ => apply Qle_bool_iff in H
             | H : Qle_bool _ _ = false |- _ =>
                 apply not_true_iff_false in H; rewrite Qle_bool_iff in H
             end; try lra; try congruence.
  - destruct (Qle_bool (m_score x) (m_score a)) eqn:E3,
             (Qltb (m_score a) (m_score x)) eqn:E4; try reflexivity; exfalso;
      repeat match goal with
             | H : Qltb _ _ = true |- _ => apply Qltb_lt in H
             | H : Qltb _ _ = false |- _ => apply Qltb_ge in H
             | H : Qle_bool _ _ = true |- _ => apply Qle_bool_iff in H
             | H : Qle_bool _ _ = false |- _ =>
                 apply not_true_iff_false in H; rewrite Qle_bool_iff in H
             end; lra.
Qed.

Lemma find_face_head people thresh embedding :
  find_face people thresh embedding
    = head (sort_by_score (omap (candidate thresh embedding) people)).
Proof.
  unfold find_face. fold (candidate thresh embedding).
  by destruct (sort_by_score _).
Qed.

(** X10: find_face returns None exactly when no person of the gallery has
    a similarity strictly above the threshold; in particular for an empty
    gallery. *)
Theorem X10_find_face_none people thresh embedding :
  find_face people thresh embedding = None
  ↔ ∀ person, person ∈ people →
      (similarity (kp_embedding person) embedding <= thresh)%Q.
Proof.
  rewrite find_face_head, sort_by_score_head_None. split.
  - intros Hnil person Hin.
    destruct (Qltb thresh (similarity (kp_embedding person) embedding)) eqn:E;
      [|by apply Qltb_ge].
    assert (Hc : ∃ m, candidate thresh embedding person = Some m)
      by (unfold candidate; rewrite E; eauto).
    destruct Hc as [m Hm].
    assert (Hmem : m ∈ omap (candidate thresh embedding) people)
      by (apply list_elem_of_omap; eauto).
    rewrite Hnil in Hmem. by apply elem_of_nil in Hmem.
  - intros Hall. destruct (omap _ people) as [|m l] eqn:Eo; [done|exfalso].
    assert (Hmem : m ∈ omap (candidate thresh embedding) people)
      by (rewrite Eo; by left).
    apply list_elem_of_omap in Hmem as (person & Hin & Hc).
    unfold candidate in Hc. specialize (Hall person Hin).
    apply Qltb_ge in Hall. by rewrite Hall in Hc.
Qed.

(** X11: when find_face returns a match, it is built from a person of the
    gallery whose similarity is strictly above the threshold, its score is
    the rounded similarity, no qualifying person has a higher rounded
    score, and every qualifying person earlier in the gallery has a
    strictly lower one (ties go to the first person). *)
Theorem X11_find_face_first_best people thresh embedding best :
  find_face people thresh embedding = Some best →
  ∃ before person after,
    people = before ++ person :: after ∧
    (thresh < similarity (kp_embedding person) embedding)%Q ∧
    best = mkMatch (kp_name person)
                   (round2 (similarity (kp_embedding person) embedding))
                   (kp_pinfl person) (kp_image_path person) ∧
    (∀ other, other ∈ before →
       (thresh < similarity (kp_embedding other) embedding)%Q →
       (round2 (similarity (kp_embedding other) embedding) < m_score best)%Q) ∧
    (∀ other, other ∈ after →
       (thresh < similarity (kp_embedding other) embedding)%Q →
       (round2 (similarity (kp_embedding other) embedding) <= m_score best)%Q).
Proof.
  rewrite find_face_head. intros Hh.
  destruct (sort_by_score_head_first _ _ Hh) as (l1 & l2 & Heq & H1 & H2).
  destruct (omap_split _ _ _ _ _ Heq) as (k1 & person & k2 & -> & Hk1 & Hc & Hk2).
  exists k1, person, k2. split; [done|].
  assert (Hcand : ∀ other,
    (thresh < similarity (kp_embedding other) embedding)%Q →
    candidate thresh embedding other
      = Some (mkMatch (kp_name other)
                (round2 (similarity (kp_embedding other) embedding))
                (kp_pinfl other) (kp_image_path other))).
  { intros other Hlt. unfold candidate. apply Qltb_lt in Hlt. by rewrite Hlt. }
  unfold candidate in Hc.
  destruct (Qltb thresh (similarity (kp_embedding person) embedding)) eqn:E; [|done].
  apply Qltb_lt in E. injection Hc as <-. split; [done|]. split; [done|]. split.
  - intros other Hin Hlt.
    apply (H1 (mkMatch (kp_name other)
                 (round2 (similarity (kp_embedding other) embedding))
                 (kp_pinfl other) (kp_image_path other))).
    rewrite <- Hk1. apply list_elem_of_omap. exists other. auto.
  - intros other Hin Hlt.
    apply (H2 (mkMatch (kp_name other)
                 (round2 (similarity (kp_embedding other) embedding))
                 (kp_pinfl other) (kp_image_path other))).
    rewrite <- Hk2. apply list_elem_of_omap. exists other. auto.
Qed.

(** X12: after _add_todb enrolls a person (a face was found), find_face
    answers as before unless the new person qualifies and its rounded
    score is strictly higher than the previous best, in which case the new
    person is returned; when no face is found in the image the gallery and
    every answer of find_face are unchanged. *)
Theorem X12_add_todb_then_find_face fa face_embeddings person_name pinfl
    image_path thresh probe :
  let fa' := add_todb fa face_embeddings person_name pinfl image_path in
  match face_embeddings with
  | [] => fa' = fa
  | embedding :: _ =>
      known_people fa' =
        known_people fa ++ [mkKnownPerson person_name embedding pinfl image_path] ∧
      find_face (known_people fa') thresh probe =
        let new := mkMatch person_name (round2 (similarity embedding probe))
                     pinfl image_path in
        match find_face (known_people fa) thresh probe with
        | Some best =>
            if Qltb thresh (similarity embedding probe)
               && Qltb (m_score best) (m_score new)
            then Some new else Some best
        | None =>
            if Qltb thresh (similarity embedding probe) then Some new else None
        end
  end.
Proof.
  destruct face_embeddings as [|embedding rest]; [done|].
  cbn [add_todb known_people]. split; [done|].
  rewrite !find_face_head, omap_app. cbn [omap list_omap].
  unfold candidate at 2. cbn [kp_embedding kp_name kp_pinfl kp_image_path].
  destruct (Qltb thresh (similarity embedding probe)).
  - cbn [option_list app]. rewrite sort_by_score_head_snoc.
    destruct (head (sort_by_score _)) as [b|]; [|done].
    cbn. by destruct (Qltb (m_score b) _).
  - cbn. rewrite app_nil_r. by destruct (head (sort_by_score _)).
Qed.

(* --------------------------------------------------------------------- *)
(* More on the per-object body: identity and geometry                    *)
(* --------------------------------------------------------------------- *)

(* what the block under "if not track_obj.recognized" does to the identity *)
Lemma identify_identity fa o t t' seen rec :
  identify fa o t = Returned (t', seen, rec) →
  (recognized t = true → t' = t) ∧
  (recognized t = false →
     recognized t' = Qltb 0 (score t') ∧
     match find_face (known_people fa) (rec_thresh fa) (obj_embedding o) with
     | Some p =>
         if Qltb (score t) (m_score p)
         then name t' = m_name p ∧ pinfl t' = m_pinfl p ∧ score t' = m_score p ∧
              image_path t' = m_image_path p
         else name t' = name t ∧ pinfl t' = pinfl t ∧ score t' = score t ∧
              image_path t' = image_path t ∧
              seen = seen_people fa ∧ rec = record_people fa
     | None =>
         name t' = name t ∧ pinfl t' = pinfl t ∧ score t' = score t ∧
         image_path t' = image_path t ∧
         seen = seen_people fa ∧ rec = record_people fa
     end).
Proof.
  unfold identify. destruct (recognized t) eqn:Hr.
  { intros [= <- _ _]. by split. }
  intros H. split; [done|]. intros _.
  destruct (find_face _ _ _) as [p|]; cbn in H.
  - destruct (Qltb (score t) (m_score p)); cbn in H.
    + destruct (record_sighting _ _ _ _) as [[s r]|e]; cbn in H; [|done].
      injection H as <- <- <-. destruct (Qltb 0 (m_score p)) eqn:E; cbn; by rewrite ?E.
    + injection H as <- <- <-. destruct (Qltb 0 (score t)) eqn:E; cbn; by rewrite ?E, ?Hr.
  - injection H as <- <- <-. destruct (Qltb 0 (score t)) eqn:E; cbn; by rewrite ?E, ?Hr.
Qed.

(* the record process_object stores, in terms of the result of identify *)
Lemma process_object_stored eye_opennesses fa o :
  sightings_ok (seen_people fa) (record_people fa) →
  let t0 := default (new_TrackableObject (obj_id o) o)
                    (trackableObjects fa !! obj_id o) in
  ∃ fa' t' ti,
    process_object eye_opennesses fa o = Returned fa' ∧
    identify fa o (set_geometry (obj_bbox o) (obj_facial5points o) t0)
      = Returned (ti, seen_people fa', record_people fa') ∧
    trackableObjects fa' = <[obj_id o := t']> (trackableObjects fa) ∧
    name t' = name ti ∧ pinfl t' = pinfl ti ∧ score t' = score ti ∧
    image_path t' = image_path ti ∧ recognized t' = recognized ti ∧
    objectID t' = objectID t0 ∧ bbox t' = obj_bbox o ∧
    kps t' = obj_facial5points o ∧ live t' = true ∧ lost_count t' = 0%Z ∧
    age t' = obj_age o ∧ gender t' = obj_gender o ∧
    sightings_ok (seen_people fa') (record_people fa').
Proof.
  intros Hok t0.
  destruct (process_object_spec eye_opennesses fa o Hok)
    as (d & ti & seen & rec & Hd & Hi & Hok' & Hp).
  fold t0 in Hi.
  destruct (identify_spec fa o
              (set_geometry (obj_bbox o) (obj_facial5points o) t0) Hok)
    as (ti' & seen' & rec' & Hi' & _ & Hsame & _).
  rewrite Hi in Hi'. injection Hi' as <- <- <-.
  destruct Hsame as (Hid & Hb & Hk & Hlv & Hlc & _).
  eexists _, _, ti. split; [exact Hp|].
  cbn [seen_people record_people trackableObjects set_sightings set_trackableObjects].
  split; [exact Hi|]. split; [reflexivity|].
  destruct (eye_update_other_fields d (obj_eye_time o)
              (set_age_gender (obj_age o) (obj_gender o) ti))
    as (E1 & E2 & E3 & E4 & E5 & E6 & E7 & E8 & E9 & E10 & E11 & E12).
  rewrite E1, E2, E3, E4, E5, E6, E7, E8, E9, E10, E11, E12. cbn.
  rewrite Hid, Hb, Hk, Hlv, Hlc. by repeat split.
Qed.

(** X13: processing a tracked object never lowers the stored score of its
    track, and the identity fields either all stay as they were or are all
    taken from the match find_face returns, which happens only for an
    unrecognized track and a match whose score is strictly greater than
    the stored one. *)
Theorem X13_identity_only_improves eye_opennesses fa o :
  sightings_ok (seen_people fa) (record_people fa) →
  let t0 := default (new_TrackableObject (obj_id o) o)
                    (trackableObjects fa !! obj_id o) in
  ∃ fa' t',
    process_object eye_opennesses fa o = Returned fa' ∧
    trackableObjects fa' !! obj_id o = Some t' ∧
    (score t0 <= score t')%Q ∧
    ((name t' = name t0 ∧ pinfl t' = pinfl t0 ∧ score t' = score t0 ∧
      image_path t' = image_path t0)
     ∨ ∃ p, recognized t0 = false ∧
            find_face (known_people fa) (rec_thresh fa) (obj_embedding o) = Some p ∧
            (score t0 < m_score p)%Q ∧
            name t' = m_name p ∧ pinfl t' = m_pinfl p ∧ score t' = m_score p ∧
            image_path t' = m_image_path p).
Proof.
  intros Hok t0.
  destruct (process_object_stored eye_opennesses fa o Hok)
    as (fa' & t' & ti & Hp & Hi & Hreg & Hn & Hpi & Hs & Hip & _).
  fold t0 in Hi. apply identify_identity in Hi as [Hrec Hnrec].
  exists fa', t'. split; [exact Hp|]. split; [by rewrite Hreg, lookup_insert_eq|].
  rewrite Hn, Hpi, Hs, Hip.
  change (recognized (set_geometry (obj_bbox o) (obj_facial5points o) t0))
    with (recognized t0) in *.
  change (score (set_geometry (obj_bbox o) (obj_facial5points o) t0))
    with (score t0) in *.
  change (name (set_geometry (obj_bbox o) (obj_facial5points o) t0))
    with (name t0) in *.
  change (pinfl (set_geometry (obj_bbox o) (obj_facial5points o) t0))
    with (pinfl t0) in *.
  change (image_path (set_geometry (obj_bbox o) (obj_facial5points o) t0))
    with (image_path t0) in *.
  destruct (recognized t0) eqn:Hr.
  { rewrite (Hrec eq_refl). split; [apply Qle_refl|]. by left. }
  destruct (Hnrec eq_refl) as [_ Hm].
  destruct (find_face _ _ _) as [p|].
  - destruct (Qltb (score t0) (m_score p)) eqn:E.
    + apply Qltb_lt in E. destruct Hm as (-> & -> & -> & ->).
      split; [lra|]. right. by exists p.
    + destruct Hm as (-> & -> & -> & -> & _). split; [apply Qle_refl|]. by left.
  - destruct Hm as (-> & -> & -> & -> & _). split; [apply Qle_refl|]. by left.
Qed.


(* --------------------------------------------------------------------- *)
(* The sighting counters over passes                                     *)
(* --------------------------------------------------------------------- *)

Lemma sightings_reach_trans s1 s2 s3 :
  sightings_reach s1 s2 → sightings_reach s2 s3 → sightings_reach s1 s3.
Proof.
  induction 1 as [|n cur seen rec seen' rec' s Hstep _ IH]; [done|].
  intros H3. eapply sightings_reach_step; [exact Hstep|]. by apply IH.
Qed.

Lemma process_object_reach eye_opennesses fa o fa' :
  process_object eye_opennesses fa o = Returned fa' →
  sightings_reach (seen_people fa, record_people fa)
                  (seen_people fa', record_people fa').
Proof.
  unfold process_object.
  destruct (match_eye_openness_returns eye_opennesses (obj_bbox o)) as [d ->]. cbn.
  destruct (identify _ _ _) as [[[ti seen] rec]|e] eqn:Hi; cbn; [|done].
  intros [= <-]. cbn.
  destruct (identify_sightings _ _ _ _ _ _ Hi) as [[-> ->]|(p & _ & _ & _ & Hs)].
  - constructor.
  - eapply sightings_reach_step; [exact Hs|constructor].
Qed.

Lemma process_objects_reach eye_opennesses objects : ∀ fa fa',
  process_objects eye_opennesses fa objects = Returned fa' →
  sightings_reach (seen_people fa, record_people fa)
                  (seen_people fa', record_people fa').
Proof.
  induction objects as [|o rest IH]; intros fa fa'; cbn [process_objects].
  - intros [= <-]. constructor.
  - destruct (process_object eye_opennesses fa o) as [fa1|e] eqn:E; cbn; [|done].
    intros H. eapply sightings_reach_trans; [by eapply process_object_reach|by apply IH].
Qed.

Lemma get_reach fa eye_opennesses objects fa' :
  get fa eye_opennesses objects = Returned fa' →
  sightings_reach (seen_people fa, record_people fa)
                  (seen_people fa', record_people fa').
Proof.
  unfold get.
  destruct (process_objects _ _ _) as [fa2|e] eqn:E; cbn; [|done].
  intros [= <-]. by apply process_objects_reach in E.
Qed.

Lemma run_frames_reach frames : ∀ fa fa',
  run_frames fa frames = Returned fa' →
  sightings_reach (seen_people fa, record_people fa)
                  (seen_people fa', record_people fa').
Proof.
  induction frames as [|[eo objects] rest IH]; intros fa fa'; cbn [run_frames].
  - intros [= <-]. constructor.
  - destruct (get fa eo objects) as [fa1|e] eqn:E; cbn; [|done].
    intros H. eapply sightings_reach_trans; [by eapply get_reach|by apply IH].
Qed.

Lemma record_sighting_grow person_name cur seen rec seen' rec' :
  record_sighting person_name cur seen rec = Returned (seen', rec') →
  counters_grow (seen, rec) (seen', rec') ∧
  (counters_ok (seen, rec) → counters_ok (seen', rec')).
Proof.
  unfold record_sighting, counters_grow, counters_ok. cbn [fst snd].
  destruct (rec !! person_name) as [last|] eqn:Er.
  - destruct (Qltb 15 (cur - last)); cbn.
    + destruct (seen !! person_name) as [c0|] eqn:Es; cbn; [|done].
      intros [= <- <-]. split.
      * intros n c Hn. destruct (decide (person_name = n)) as [<-|Hne].
        -- rewrite lookup_insert_eq. exists (c0 + 1)%Z. split; [done|]. simplify_eq. lia.
        -- rewrite lookup_insert_ne by done. exists c. split; [done|lia].
      * intros [Hdom Hpos]. split.
        -- intros n. destruct (decide (person_name = n)) as [<-|Hne].
           ++ rewrite !lookup_insert_eq. split; eauto.
           ++ rewrite !lookup_insert_ne by done. apply Hdom.
        -- intros n c. destruct (decide (person_name = n)) as [<-|Hne].
           ++ rewrite lookup_insert_eq. intros [= <-].
              specialize (Hpos _ _ Es). lia.
           ++ rewrite lookup_insert_ne by done. apply Hpos.
    + intros [= <- <-]. split.
      * intros n c Hn. exists c. split; [done|lia].
      * intros [Hdom Hpos]. split; [|done].
        intros n. destruct (decide (person_name = n)) as [<-|Hne].
        -- rewrite lookup_insert_eq. rewrite Hdom, Er. split; eauto.
        -- rewrite lookup_insert_ne by done. apply Hdom.
  - cbn. intros [= <- <-]. split.
    + intros n c Hn. destruct (decide (person_name = n)) as [<-|Hne].
      * rewrite lookup_insert_eq, Hn. cbn. exists (c + 1)%Z. split; [done|lia].
      * rewrite lookup_insert_ne by done. exists c. split; [done|lia].
    + intros [Hdom Hpos]. split.
      * intros n. destruct (decide (person_name = n)) as [<-|Hne].
        -- rewrite !lookup_insert_eq. split; eauto.
        -- rewrite !lookup_insert_ne by done. apply Hdom.
      * intros n c. destruct (decide (person_name = n)) as [<-|Hne].
        -- rewrite lookup_insert_eq. intros [= <-].
           destruct (seen !! person_name) as [c0|] eqn:Es; cbn; [|lia].
           specialize (Hpos _ _ Es). lia.
        -- rewrite lookup_insert_ne by done. apply Hpos.
Qed.

Lemma sightings_reach_grow s s' :
  sightings_reach s s' →
  counters_grow s s' ∧ (counters_ok s → counters_ok s').
Proof.
  induction 1 as [s|n cur seen rec seen' rec' s Hstep _ [IHg IHo]].
  - split; [|done]. intros n c Hn. exists c. split; [done|lia].
  - destruct (record_sighting_grow _ _ _ _ _ _ Hstep) as [Hg Ho]. split.
    + intros m c Hm. destruct (Hg m c Hm) as (c1 & Hc1 & Hle1).
      destruct (IHg m c1 Hc1) as (c2 & Hc2 & Hle2). exists c2. split; [done|lia].
    + intros H. by apply IHo, Ho.
Qed.


(** X16: over any run of frames from a state whose sighting maps are
    empty, as __init__ leaves them, seen_people and record_people always
    hold the same names and every seen_people counter is at least 1. *)
Theorem X16_counters_positive frames fa :
  seen_people fa = ∅ → record_people fa = ∅ →
  ∃ fa', run_frames fa frames = Returned fa' ∧
    (∀ n, is_Some (seen_people fa' !! n) ↔ is_Some (record_people fa' !! n)) ∧
    (∀ n c, seen_people fa' !! n = Some c → (1 <= c)%Z).
Proof.
  intros Hs Hr.
  destruct (run_frames_returns frames fa) as (fa' & Hrun & _).
  { rewrite Hs, Hr. intros n [x Hx]. by rewrite lookup_empty in Hx. }
  exists fa'. split; [done|].
  apply run_frames_reach in Hrun. apply sightings_reach_grow in Hrun as [_ Ho].
  apply Ho. rewrite Hs, Hr. split; cbn.
  - intros n. by rewrite !lookup_empty.
  - intros n c Hn. by rewrite lookup_empty in Hn.
Qed.

(* --------------------------------------------------------------------- *)
(* The closure state on a clock that does not run backwards              *)
(* --------------------------------------------------------------------- *)

Lemma closure_ok_later now now' t :
  (now <= now')%Q → closure_ok now t → closure_ok now' t.
Proof.
  intros Hle (H1 & H2 & H3). split; [exact H1|]. split; [exact H2|].
  destruct (last_eye_check_time t); [lra|done].
Qed.

Lemma eye_update_closure_ok d now t :
  closure_ok now t → closure_ok now (eye_update d now t).
Proof.
  intros (H1 & H2 & H3). destruct d as [d|].
  2:{ rewrite eye_update_unmatched. exact (conj H1 (conj H2 H3)). }
  destruct (any_eye_closed d) eqn:Ec.
  - destruct (eye_update_closed d now t Ec) as (Hl & Hc & Hp).
    assert (Hge : (cumulative_closed_time t
                   <= cumulative_closed_time (eye_update (Some d) now t))%Q).
    { rewrite Hc. destruct (last_eye_check_time t); unfold default, from_option, id; lra. }
    split; [lra|]. split.
    + rewrite Hp. split.
      * intros [Hg|Ht]%orb_true_iff; [by apply Qgeb_ge|]. apply H2 in Ht. lra.
      * intros H3'. apply Qgeb_ge in H3'. by rewrite H3'.
    + rewrite Hl. apply Qle_refl.
  - unfold any_eye_closed in Ec. apply orb_false_iff in Ec as [El Er].
    apply negb_false_iff in El, Er.
    destruct (eye_update_open d now t El Er) as (Hl & Hc & Hp & _).
    unfold closure_ok. rewrite Hl, Hc, Hp. split; [lra|]. split; [|apply Qle_refl].
    split; [done|]. intros ?. lra.
Qed.

Lemma eye_frames_closure_ok frames : ∀ t lo,
  closure_ok lo t →
  StronglySorted Qle (lo :: frames.*2) →
  closure_ok (List.last frames.*2 lo) (foldl eye_frame_step t frames).
Proof.
  induction frames as [|[d now] rest IH]; intros t lo Hok Hsort; [done|].
  rewrite fmap_cons in Hsort. cbn [snd] in Hsort.
  apply StronglySorted_inv in Hsort as [Hsort Hhd].
  apply Forall_cons in Hhd as [Hle _].
  rewrite fmap_cons. cbn [snd foldl]. rewrite last_cons_default.
  apply IH; [|done]. unfold eye_frame_step. cbn [fst snd].
  apply eye_update_closure_ok. by eapply closure_ok_later.
Qed.

(** X17: for a track whose closure state is consistent (cumulative closed
    time non-negative, timer paused exactly when it is at least 3 seconds),
    as for a fresh track, and whose closure checks are read on a clock that
    never runs backwards, the state stays consistent over every run of
    frames, matched or not: timer_paused holds exactly when
    cumulative_closed_time >= 3.0. *)
Theorem X17_paused_iff_three_seconds t frames :
  (0 <= cumulative_closed_time t)%Q →
  (timer_paused t = true ↔ (3 <= cumulative_closed_time t)%Q) →
  StronglySorted Qle
    (match last_eye_check_time t with
     | Some l => l :: frames.*2
     | None => frames.*2
     end) →
  let t' := foldl eye_frame_step t frames in
  (0 <= cumulative_closed_time t')%Q ∧
  (timer_paused t' = true ↔ (3 <= cumulative_closed_time t')%Q).
Proof.
  intros H0 Hp Hsort t'. subst t'.
  destruct (last_eye_check_time t) as [l|] eqn:El.
  - destruct (eye_frames_closure_ok frames t l) as (? & ? & _); [|done|done].
    unfold closure_ok. rewrite El. split; [exact H0|]. split; [exact Hp|].
    apply Qle_refl.
  - destruct frames as [|[d now] rest]; [done|].
    destruct (eye_frames_closure_ok ((d, now) :: rest) t now) as (? & ? & _); [| |done].
    + unfold closure_ok. rewrite El. split; [exact H0|]. by split.
    + rewrite fmap_cons in Hsort |- *. cbn [snd] in *.
      constructor; [done|]. constructor; [apply Qle_refl|].
      by apply StronglySorted_inv in Hsort as [_ ?].
Qed.

(** X18: after the eye-state evaluation of a frame, each of the two eye
    states is "unknown", "Open" or "Closed", both are "unknown" together,
    and a track whose two eye states are "Open" has cumulative_closed_time
    0 and is not paused. *)
Theorem X18_open_eyes_not_paused d current_time t :
  let t' := eye_update d current_time t in
  (left_eye_open t' = "unknown" ∨ left_eye_open t' = "Open"
   ∨ left_eye_open t' = "Closed") ∧
  (right_eye_open t' = "unknown" ∨ right_eye_open t' = "Open"
   ∨ right_eye_open t' = "Closed") ∧
  (left_eye_open t' = "unknown" ↔ right_eye_open t' = "unknown") ∧
  (left_eye_open t' = "Open" → right_eye_open t' = "Open" →
   cumulative_closed_time t' = 0%Q ∧ timer_paused t' = false).
Proof.
  destruct d as [[b [|] [|]]|]; cbv zeta.
  - destruct (eye_update_open (mkFaceData b true true) current_time t eq_refl eq_refl)
      as (_ & Hc & Hp & -> & ->).
    repeat split; auto; discriminate.
  - assert (left_eye_open (eye_update (Some (mkFaceData b true false)) current_time t)
              = "Open" ∧
            right_eye_open (eye_update (Some (mkFaceData b true false)) current_time t)
              = "Closed") as [-> ->].
    { unfold eye_update. cbn.
      destruct t as [? ? ? ? ? ? ? ? ? ? ? ? ? ? c p [l|]]; cbn;
        destruct (Qgeb _ 3); done. }
    repeat split; auto; discriminate.
  - assert (left_eye_open (eye_update (Some (mkFaceData b false true)) current_time t)
              = "Closed" ∧
            right_eye_open (eye_update (Some (mkFaceData b false true)) current_time t)
              = "Open") as [-> ->].
    { unfold eye_update. cbn.
      destruct t as [? ? ? ? ? ? ? ? ? ? ? ? ? ? c p [l|]]; cbn;
        destruct (Qgeb _ 3); done. }
    repeat split; auto; discriminate.
  - assert (left_eye_open (eye_update (Some (mkFaceData b false false)) current_time t)
              = "Closed" ∧
            right_eye_open (eye_update (Some (mkFaceData b false false)) current_time t)
              = "Closed") as [-> ->].
    { unfold eye_update. cbn.
      destruct t as [? ? ? ? ? ? ? ? ? ? ? ? ? ? c p [l|]]; cbn;
        destruct (Qgeb _ 3); done. }
    repeat split; auto; discriminate.
  - rewrite eye_update_unmatched. cbn. repeat split; auto; discriminate.
Qed.

(* --------------------------------------------------------------------- *)
(* More on the reconciliation pass                                       *)
(* --------------------------------------------------------------------- *)

(** X19: a frame in which the tracker confirms no object empties the
    registry and leaves the gallery, the threshold and the sighting maps
    as they were; this pass never raises, whatever the state. *)
Theorem X19_empty_frame_clears_registry fa eye_opennesses :
  get fa eye_opennesses []
    = Returned (mkFaceAnalysis (known_people fa) (rec_thresh fa) ∅
                  (seen_people fa) (record_people fa)).
Proof.
  unfold get. cbn. unfold remove_dead, mark_not_live, set_trackableObjects. cbn.
  do 2 f_equal. apply map_eq. intros i. rewrite lookup_empty.
  destruct (filter _ _ !! i) as [t|] eqn:E; [|done].
  apply map_lookup_filter_Some in E as [E Hl]. rewrite lookup_fmap in E.
  destruct (trackableObjects fa !! i); cbn in E; [|done].
  injection E as <-. done.
Qed.

Lemma process_objects_carry eye_opennesses objects : ∀ fa,
  sightings_ok (seen_people fa) (record_people fa) →
  ∃ fa', process_objects eye_opennesses fa objects = Returned fa' ∧
    ∀ id t', trackableObjects fa' !! id = Some t' →
      trackableObjects fa !! id = Some t' ∨
      ∃ o, o ∈ objects ∧ obj_id o = id ∧ carries o t'.
Proof.
  induction objects as [|o rest IH]; intros fa Hok.
  - exists fa. split; [done|]. auto.
  - cbn [process_objects].
    destruct (process_object_stored eye_opennesses fa o Hok)
      as (fa1 & t1 & ti & -> & _ & Hreg & _ & _ & _ & _ & _ & _ & Hb & Hk & Hlv & Hlc
          & Ha & Hg & Hok1).
    cbn. destruct (IH fa1 Hok1) as (fa' & -> & Hc).
    exists fa'. split; [done|]. intros id t' Ht'.
    destruct (Hc id t' Ht') as [H1|(o' & Hin & Hid & Hcar)].
    + rewrite Hreg in H1. destruct (decide (obj_id o = id)) as [Heq|Hne].
      * rewrite Heq, lookup_insert_eq in H1. injection H1 as <-.
        right. exists o. split; [by left|]. by repeat split.
      * rewrite lookup_insert_ne in H1 by done. by left.
    + right. exists o'. split; [by right|done].
Qed.

(** X20: after a reconciliation pass every record of the registry carries
    the geometry, age and gender of one of this frame's tracked objects
    with the same track id, is live and has lost_count 0. *)
Theorem X20_records_carry_frame_data fa eye_opennesses objects :
  sightings_ok (seen_people fa) (record_people fa) →
  ∃ fa', get fa eye_opennesses objects = Returned fa' ∧
    ∀ id t', trackableObjects fa' !! id = Some t' →
      ∃ o, o ∈ objects ∧ obj_id o = id ∧
           bbox t' = obj_bbox o ∧ kps t' = obj_facial5points o ∧
           age t' = obj_age o ∧ gender t' = obj_gender o ∧
           live t' = true ∧ lost_count t' = 0%Z.
Proof.
  intros Hok. unfold get.
  destruct (process_objects_carry eye_opennesses objects (mark_not_live fa))
    as (fa2 & -> & Hc); [done|].
  cbn. exists (remove_dead fa2). split; [done|]. intros id t' Ht'.
  cbn in Ht'. apply map_lookup_filter_Some in Ht' as [Ht' Hlive]. cbn in Hlive.
  destruct (Hc id t' Ht') as [H1|(o & Hin & Hid & Hcar)].
  - exfalso. cbn in H1. rewrite lookup_fmap in H1.
    destruct (trackableObjects fa !! id); cbn in H1; [|done].
    injection H1 as <-. done.
  - exists o. split; [done|]. split; [done|]. exact Hcar.
Qed.

(* --------------------------------------------------------------------- *)
(* The names of the tracks and the counters                              *)
(* --------------------------------------------------------------------- *)

Lemma record_sighting_counted person_name cur seen rec seen' rec' :
  sightings_ok seen rec →
  record_sighting person_name cur seen rec = Returned (seen', rec') →
  is_Some (seen' !! person_name).
Proof.
  intros Hok. unfold record_sighting.
  destruct (rec !! person_name) as [last|] eqn:Er.
  - destruct (Hok person_name) as [c Hc]; [by rewrite Er|]. rewrite Hc.
    destruct (Qltb 15 (cur - last)); cbn; intros [= <- <-].
    + by rewrite lookup_insert_eq.
    + by rewrite Hc.
  - cbn. intros [= <- <-]. by rewrite lookup_insert_eq.
Qed.

Lemma identify_name_counted fa o t t' seen rec :
  sightings_ok (seen_people fa) (record_people fa) →
  identify fa o t = Returned (t', seen, rec) →
  (∀ n, is_Some (seen_people fa !! n) → is_Some (seen !! n)) ∧
  (name t' = name t ∨ is_Some (seen !! name t')).
Proof.
  intros Hok. unfold identify.
  assert (Hrefl : ∀ n, is_Some (seen_people fa !! n) → is_Some (seen_people fa !! n))
    by done.
  destruct (recognized t).
  { intros [= <- <- <-]. split; [done|by left]. }
  assert (Hkeep : ∀ t1 : TrackableObject,
    name (if Qltb 0 (score t1) then set_recognized true t1 else t1) = name t1).
  { intros t1. by destruct (Qltb 0 (score t1)). }
  destruct (find_face _ _ _) as [p|]; cbn.
  - destruct (Qltb (score t) (m_score p)); cbn.
    + destruct (record_sighting _ _ _ _) as [[s r]|e] eqn:Es; cbn; [|done].
      intros [= <- <- <-]. split.
      * intros n [c Hc].
        destruct (record_sighting_grow _ _ _ _ _ _ Es) as [Hg _].
        destruct (Hg n c Hc) as (c' & Hc' & _). cbn in Hc'. by rewrite Hc'.
      * right. destruct (Qltb 0 (m_score p)); cbn; by eapply record_sighting_counted.
    + intros [= <- <- <-]. split; [done|]. left. by rewrite Hkeep.
  - intros [= <- <- <-]. split; [done|]. left. by rewrite Hkeep.
Qed.

Lemma process_object_names_counted eye_opennesses fa o :
  (∀ id obj, name (new_TrackableObject id obj) = "unknown") →
  sightings_ok (seen_people fa) (record_people fa) →
  names_counted fa →
  ∃ fa', process_object eye_opennesses fa o = Returned fa' ∧
    sightings_ok (seen_people fa') (record_people fa') ∧
    names_counted fa'.
Proof.
  intros Hnew Hok Hnc.
  destruct (process_object_stored eye_opennesses fa o Hok)
    as (fa' & t' & ti & Hp & Hi & Hreg & Hn & _ & _ & _ & _ & _ & _ & _ & _ & _ & _ & _
        & Hok').
  exists fa'. split; [done|]. split; [done|].
  destruct (identify_name_counted _ _ _ _ _ _ Hok Hi) as [Hgrow Hname].
  intros id t Ht. rewrite Hreg in Ht.
  destruct (decide (obj_id o = id)) as [Heq|Hne].
  - rewrite Heq, lookup_insert_eq in Ht. injection Ht as <-. rewrite Hn.
    destruct Hname as [->|Hs]; [|by right]. cbn [name set_geometry].
    destruct (trackableObjects fa !! obj_id o) as [t0|] eqn:E; cbn.
    + destruct (Hnc _ _ E) as [?|Hs]; [by left|right]. by apply Hgrow.
    + left. apply Hnew.
  - rewrite lookup_insert_ne in Ht by done.
    destruct (Hnc _ _ Ht) as [?|Hs]; [by left|right]. by apply Hgrow.
Qed.

Lemma process_objects_names_counted eye_opennesses objects : ∀ fa,
  (∀ id obj, name (new_TrackableObject id obj) = "unknown") →
  sightings_ok (seen_people fa) (record_people fa) →
  names_counted fa →
  ∃ fa', process_objects eye_opennesses fa objects = Returned fa' ∧
    sightings_ok (seen_people fa') (record_people fa') ∧
    names_counted fa'.
Proof.
  induction objects as [|o rest IH]; intros fa Hnew Hok Hnc.
  - by exists fa.
  - cbn [process_objects].
    destruct (process_object_names_counted eye_opennesses fa o Hnew Hok Hnc)
      as (fa1 & -> & Hok1 & Hnc1).
    cbn. by apply IH.
Qed.

Lemma get_names_counted fa eye_opennesses objects :
  (∀ id obj, name (new_TrackableObject id obj) = "unknown") →
  sightings_ok (seen_people fa) (record_people fa) →
  names_counted fa →
  ∃ fa', get fa eye_opennesses objects = Returned fa' ∧
    sightings_ok (seen_people fa') (record_people fa') ∧
    names_counted fa'.
Proof.
  intros Hnew Hok Hnc. unfold get.
  destruct (process_objects_names_counted eye_opennesses objects (mark_not_live fa))
    as (fa2 & -> & Hok2 & Hnc2); [done|done| |].
  - intros id t Ht. cbn in Ht. rewrite lookup_fmap in Ht.
    destruct (trackableObjects fa !! id) as [t0|] eqn:E; cbn in Ht; [|done].
    injection Ht as <-. cbn. by apply (Hnc id).
  - cbn. exists (remove_dead fa2). split; [done|]. split; [done|].
    intros id t Ht. cbn in Ht. apply map_lookup_filter_Some in Ht as [Ht _].
    by apply (Hnc2 id).
Qed.

Lemma run_frames_names_counted frames : ∀ fa,
  (∀ id obj, name (new_TrackableObject id obj) = "unknown") →
  sightings_ok (seen_people fa) (record_people fa) →
  names_counted fa →
  ∃ fa', run_frames fa frames = Returned fa' ∧
    sightings_ok (seen_people fa') (record_people fa') ∧
    names_counted fa'.
Proof.
  induction frames as [|[eo objects] rest IH]; intros fa Hnew Hok Hnc.
  - by exists fa.
  - cbn [run_frames].
    destruct (get_names_counted fa eo objects Hnew Hok Hnc) as (fa1 & -> & Hok1 & Hnc1).
    cbn. by apply IH.
Qed.

(* --------------------------------------------------------------------- *)
(* Records do not survive a frame without confirmation                   *)
(* --------------------------------------------------------------------- *)

(* process_object reads the registry only at the id of its object *)
Lemma process_object_registry_irrelevant eye_opennesses fa m o :
  trackableObjects fa !! obj_id o = m !! obj_id o →
  ∀ fa1 fa2,
    process_object eye_opennesses fa o = Returned fa1 →
    process_object eye_opennesses (set_trackableObjects m fa) o = Returned fa2 →
    trackableObjects fa1 !! obj_id o = trackableObjects fa2 !! obj_id o.
Proof.
  intros Hl fa1 fa2. unfold process_object.
  cbn [trackableObjects set_trackableObjects]. rewrite <- Hl.
  destruct (match_eye_openness eye_opennesses (obj_bbox o)) as [d|e]; cbn; [|done].
  change (identify (set_trackableObjects m fa) o) with (identify fa o).
  destruct (identify fa o _) as [[[ti seen] rec]|e]; cbn; [|done].
  intros [= <-] [= <-]. cbn. by rewrite !lookup_insert_eq.
Qed.

(** X28: a track that the tracker does not confirm in one frame loses its
    record, and when its id is confirmed again in the next frame the
    record it gets is the one a track never seen before would get: nothing
    of the earlier record (identity, recognized flag, closure state)
    survives the gap. *)
Theorem X28_record_forgotten_after_gap fa eye_opennesses1 objects1
    eye_opennesses2 o :
  sightings_ok (seen_people fa) (record_people fa) →
  obj_id o ∉ confirmed_ids objects1 →
  ∃ fa1 fa2 fa2',
    get fa eye_opennesses1 objects1 = Returned fa1 ∧
    trackableObjects fa1 !! obj_id o = None ∧
    get fa1 eye_opennesses2 [o] = Returned fa2 ∧
    get (set_trackableObjects ∅ fa1) eye_opennesses2 [o] = Returned fa2' ∧
    is_Some (trackableObjects fa2 !! obj_id o) ∧
    trackableObjects fa2 !! obj_id o = trackableObjects fa2' !! obj_id o.
Proof.
  intros Hok Hnot.
  destruct (get_spec fa eye_opennesses1 objects1 Hok) as (fa1 & Hg1 & Hok1 & Hdom1 & _).
  assert (Hnone : trackableObjects fa1 !! obj_id o = None).
  { destruct (trackableObjects fa1 !! obj_id o) eqn:E; [|done].
    exfalso. apply Hnot, Hdom1. by rewrite E. }
  destruct (get_spec fa1 eye_opennesses2 [o] Hok1) as (fa2 & Hg2 & _ & Hdom2 & Hlive2 & _).
  destruct (get_spec (set_trackableObjects ∅ fa1) eye_opennesses2 [o] Hok1)
    as (fa2' & Hg2' & _ & Hdom2' & Hlive2' & _).
  exists fa1, fa2, fa2'. split; [done|]. split; [done|]. split; [done|].
  split; [done|]. split; [apply Hdom2; by left|].
  revert Hg2 Hg2'. unfold get. cbn [process_objects].
  destruct (process_object eye_opennesses2 (mark_not_live fa1) o) as [f|e] eqn:E; cbn;
    [|done].
  destruct (process_object eye_opennesses2
              (mark_not_live (set_trackableObjects ∅ fa1)) o) as [f'|e] eqn:E'; cbn;
    [|done].
  intros [= <-] [= <-].
  assert (Hsame : trackableObjects f !! obj_id o = trackableObjects f' !! obj_id o).
  { eapply (process_object_registry_irrelevant eye_opennesses2 (mark_not_live fa1)
              (set_live false <$> ∅) o); [|exact E|exact E'].
    cbn. by rewrite !lookup_fmap, Hnone, lookup_empty. }
  cbn [remove_dead trackableObjects set_trackableObjects].
  destruct (trackableObjects f !! obj_id o) as [t|] eqn:Et.
  - symmetry in Hsame.
    destruct (decide (live t = true)) as [Hl|Hl].
    + rewrite (proj2 (map_lookup_filter_Some _ _ _ _) (conj Et Hl)).
      by rewrite (proj2 (map_lookup_filter_Some _ _ _ _) (conj Hsame Hl)).
    + rewrite (proj2 (map_lookup_filter_None _ _ _)).
      2:{ right. intros t' Ht'. simplify_eq. done. }
      rewrite (proj2 (map_lookup_filter_None _ _ _)); [done|].
      right. intros t' Ht'. simplify_eq. done.
  - symmetry in Hsame.
    rewrite (proj2 (map_lookup_filter_None _ _ _)) by by left.
    by rewrite (proj2 (map_lookup_filter_None _ _ _)) by by left.
Qed.

Lemma eye_update_open_labels d current_time t :
  left_eye_open (eye_update d current_time t) = "Open" →
  right_eye_open (eye_update d current_time t) = "Open" →
  cumulative_closed_time (eye_update d current_time t) = 0%Q ∧
  timer_paused (eye_update d current_time t) = false.
Proof.
  destruct d as [[b l r]|].
  2:{ rewrite eye_update_unmatched. cbn. discriminate. }
  destruct l, r.
  - intros _ _.
    by destruct (eye_update_open (mkFaceData b true true) current_time t eq_refl eq_refl)
      as (_ & Hc & Hp & _).
  - intros _ H. exfalso. revert H. unfold eye_update. cbn.
    destruct t as [? ? ? ? ? ? ? ? ? ? ? ? ? ? c p [x|]]; cbn;
      destruct (Qgeb _ 3); discriminate.
  - intros H. exfalso. revert H. unfold eye_update. cbn.
    destruct t as [? ? ? ? ? ? ? ? ? ? ? ? ? ? c p [x|]]; cbn;
      destruct (Qgeb _ 3); discriminate.
  - intros H. exfalso. revert H. unfold eye_update. cbn.
    destruct t as [? ? ? ? ? ? ? ? ? ? ? ? ? ? c p [x|]]; cbn;
      destruct (Qgeb _ 3); discriminate.
Qed.

Lemma process_objects_open_not_paused eye_opennesses objects : ∀ fa,
  sightings_ok (seen_people fa) (record_people fa) →
  ∃ fa', process_objects eye_opennesses fa objects = Returned fa' ∧
    ∀ id t', trackableObjects fa' !! id = Some t' →
      trackableObjects fa !! id = Some t' ∨
      (left_eye_open t' = "Open" → right_eye_open t' = "Open" →
       cumulative_closed_time t' = 0%Q ∧ timer_paused t' = false).
Proof.
  induction objects as [|o rest IH]; intros fa Hok.
  - exists fa. split; [done|]. auto.
  - cbn [process_objects].
    destruct (process_object_record eye_opennesses fa o Hok)
      as (fa1 & t1 & d & -> & _ & Hok1 & Hreg & _ & _ & _ & Hc & Hp & _ & Hl & Hr & _).
    cbn. destruct (IH fa1 Hok1) as (fa' & -> & Hrest).
    exists fa'. split; [done|]. intros id t' Ht'.
    destruct (Hrest id t' Ht') as [H1|H2]; [|by right].
    rewrite Hreg in H1. destruct (decide (obj_id o = id)) as [Heq|Hne].
    + rewrite Heq, lookup_insert_eq in H1. injection H1 as <-. right.
      rewrite Hc, Hp, Hl, Hr. apply eye_update_open_labels.
    + rewrite lookup_insert_ne in H1 by done. by left.
Qed.

(** X29: after a reconciliation pass, every record of the registry whose
    two eye states are "Open" has cumulative_closed_time 0 and is not
    paused. *)
Theorem X29_open_records_not_paused fa eye_opennesses objects :
  sightings_ok (seen_people fa) (record_people fa) →
  ∃ fa', get fa eye_opennesses objects = Returned fa' ∧
    ∀ id t', trackableObjects fa' !! id = Some t' →
      left_eye_open t' = "Open" → right_eye_open t' = "Open" →
      cumulative_closed_time t' = 0%Q ∧ timer_paused t' = false.
Proof.
  intros Hok. unfold get.
  destruct (process_objects_open_not_paused eye_opennesses objects (mark_not_live fa))
    as (fa2 & -> & Hc); [done|].
  cbn. exists (remove_dead fa2). split; [done|]. intros id t' Ht'.
  cbn in Ht'. apply map_lookup_filter_Some in Ht' as [Ht' Hlive]. cbn in Hlive.
  destruct (Hc id t' Ht') as [H1|H2]; [|done].
  exfalso. cbn in H1. rewrite lookup_fmap in H1.
  destruct (trackableObjects fa !! id); cbn in H1; [|done].
  injection H1 as <-. done.
Qed.

End Engine.

(* --------------------------------------------------------------------- *)
(* Examples                                                              *)
(* --------------------------------------------------------------------- *)

Lemma sightings_ok_empty : sightings_ok ∅ ∅.
Proof. intros n [x Hx]. by rewrite lookup_empty in Hx. Qed.






(* both eyes closed at 0, 1, 2 and 3.1 seconds on a fresh track *)
Lemma C3_closure_debounce_witness :
  let t' := foldl eye_step (demo_new_TrackableObject 1 (demo_object [] 0))
              [(demo_closed, 0%Q); (demo_closed, 1%Q); (demo_closed, 2%Q);
               (demo_closed, 31 # 10)] in
  timer_paused t' = true ∧ (3 <= cumulative_closed_time t')%Q ∧
  cumulative_closed_time (eye_update (Some demo_open) (32 # 10) t') = 0%Q ∧
  timer_paused (eye_update (Some demo_open) (32 # 10) t') = false.
Proof.
  destruct C3_closure_debounce as [H _].
  destruct (H (demo_new_TrackableObject 1 (demo_object [] 0)) demo_closed 0%Q
              [(demo_closed, 1%Q); (demo_closed, 2%Q); (demo_closed, 31 # 10)])
    as (Hp & Hc & Ho).
  - cbn. lra.
  - exact I.
  - repeat constructor.
  - cbn. lra.
  - split; [exact Hp|]. split; [exact Hc|].
    apply Ho; reflexivity.
Defined.

(* alice recognized at 0, 10, 20 and 36 seconds: counted at 0 and at 36 *)
Lemma C7_sightings_window_witness :
  ∃ log,
    sighting_increments
      [("alice", 0%Q); ("alice", 10%Q); ("alice", 20%Q); ("alice", 36%Q)] ∅ ∅
      = Returned log ∧
    ∀ l1 l2 l3 n ti tj,
      log = l1 ++ (n, ti) :: l2 ++ (n, tj) :: l3 → (15 < tj - ti)%Q.
Proof.
  destruct C7_sightings_window as [H _].
  apply H. cbn.
  repeat (constructor; [|repeat (constructor; [cbn; lra|])]); constructor.
Defined.

(* an unmatched frame for a track that is new to the registry *)
Lemma C2_unmatched_frame_witness :
  ∃ fa' t',
    process_object demo_similarity demo_round2 demo_new_TrackableObject
      (demo_eyes []) demo_fa (demo_object [] 5) = Returned fa' ∧
    trackableObjects fa' !! 1%Z = Some t' ∧
    cumulative_closed_time t' = 0%Q ∧
    timer_paused t' = false ∧
    last_eye_check_time t' = None ∧
    left_eye_open t' = "unknown" ∧ right_eye_open t' = "unknown".
Proof.
  apply (C2_unmatched_frame demo_similarity demo_round2 demo_new_TrackableObject
           (demo_eyes []) demo_fa (demo_object [] 5)).
  - exact sightings_ok_empty.
  - reflexivity.
Defined.


(* a recognized track seen again with a face that matches nobody *)
Lemma C10_recognized_identity_frozen_witness :
  ∃ fa' t',
    run_frames demo_similarity demo_round2 demo_new_TrackableObject
      demo_fa_recognized
      [(demo_eyes [demo_open], [demo_object [] 1]);
       (demo_eyes [], [demo_object [2%Q] 2])] = Returned fa' ∧
    trackableObjects fa' !! 1%Z = Some t' ∧
    name t' = "alice" ∧ pinfl t' = "123" ∧ score t' = 9 # 10 ∧
    image_path t' = "alice.jpg" ∧ recognized t' = true.
Proof.
  destruct (C10_recognized_identity_frozen demo_similarity demo_round2
              demo_new_TrackableObject) as [_ H].
  apply (H [(demo_eyes [demo_open], [demo_object [] 1]);
            (demo_eyes [], [demo_object [2%Q] 2])]
           demo_fa_recognized 1%Z demo_recognized).
  - exact sightings_ok_empty.
  - reflexivity.
  - reflexivity.
  - repeat constructor.
Defined.

(** Against C2 as stated: track 1 has both eyes closed at 0 seconds, no
    matching detection at 2 seconds and both eyes closed again at 4
    seconds.  After the second frame last_eye_check_time is still 0, not 2;
    the third frame then adds the whole 4 seconds and pauses the timer. *)
Lemma C2_last_check_not_advanced :
  ∃ fa2 t2 fa3 t3,
    run_frames demo_similarity demo_round2 demo_new_TrackableObject demo_fa
      [(demo_eyes [demo_closed], [demo_object [] 0]);
       (demo_eyes [], [demo_object [] 2])] = Returned fa2 ∧
    match_eye_openness (demo_eyes []) (obj_bbox (demo_object [] 2))
      = Returned None ∧
    trackableObjects fa2 !! 1%Z = Some t2 ∧
    last_eye_check_time t2 = Some 0%Q ∧
    last_eye_check_time t2 ≠ Some (obj_eye_time (demo_object [] 2)) ∧
    get demo_similarity demo_round2 demo_new_TrackableObject fa2
      (demo_eyes [demo_closed]) [demo_object [] 4] = Returned fa3 ∧
    trackableObjects fa3 !! 1%Z = Some t3 ∧
    (cumulative_closed_time t3 == 4)%Q ∧
    timer_paused t3 = true.
Proof.
  do 4 eexists.
  split; [vm_compute; reflexivity|].
  split; [reflexivity|].
  split; [vm_compute; reflexivity|].
  split; [reflexivity|].
  split; [discriminate|].
  split; [vm_compute; reflexivity|].
  split; [vm_compute; reflexivity|].
  split; reflexivity.
Qed.

(* --------------------------------------------------------------------- *)
(* The model run on small inputs                                         *)
(* --------------------------------------------------------------------- *)

Example py_int_truncates :
  py_int (37 # 10) = 3%Z ∧ py_int (- (37 # 10)) = (-3)%Z ∧ py_int 4 = 4%Z.
Proof. repeat split; reflexivity. Qed.

(* seen at 0, asked again at 5.5 seconds while running: 5 seconds *)
Example update_person_timer_running :
  (update_person_timer demo_timers_seen "alice" (55 # 10) false).2 = 5%Z.
Proof. reflexivity. Qed.

Example update_person_timer_unknown :
  update_person_timer demo_timers_seen "unknown" 3 false = (demo_timers_seen, 0%Z) ∧
  update_person_timer demo_timers_seen "" 3 true = (demo_timers_seen, 0%Z).
Proof. split; reflexivity. Qed.

(* of two detections above the threshold the one with the larger IoU wins;
   of two equal ones the first *)
Example match_eye_openness_picks_best :
  match_eye_openness
    (demo_eyes [mkFaceData (1, 0, 8, 10)%Q true false; demo_closed; demo_open])
    demo_bbox = Returned (Some demo_closed).
Proof. vm_compute. reflexivity. Qed.

Example find_face_best_match :
  find_face demo_similarity demo_round2
    [mkKnownPerson "bob" [5 # 10] "456" "bob.jpg";
     mkKnownPerson "alice" [1%Q] "123" "alice.jpg";
     mkKnownPerson "carol" [1%Q] "789" "carol.jpg"]
    (4 # 10) [9 # 10]
  = Some (mkMatch "alice" (demo_similarity [1%Q] [9 # 10]) "123" "alice.jpg").
Proof. vm_compute. reflexivity. Qed.

(* the first frame with a face close to alice's recognizes track 1 and
   counts one sighting *)
Example get_recognizes_alice :
  ∃ fa' t',
    get demo_similarity demo_round2 demo_new_TrackableObject demo_fa
      (demo_eyes [demo_open]) [demo_object [9 # 10] 0] = Returned fa' ∧
    trackableObjects fa' !! 1%Z = Some t' ∧
    name t' = "alice" ∧ recognized t' = true ∧
    left_eye_open t' = "Open" ∧ last_eye_check_time t' = Some 0%Q ∧
    seen_people fa' !! "alice" = Some 1%Z.
Proof.
  do 2 eexists. split; [vm_compute; reflexivity|].
  split; [vm_compute; reflexivity|]. repeat split; vm_compute; reflexivity.
Qed.

Example sighting_increments_log :
  sighting_increments
    [("alice", 0%Q); ("alice", 10%Q); ("bob", 12%Q); ("alice", 20%Q);
     ("alice", 36%Q)] ∅ ∅
  = Returned [("alice", 0%Q); ("bob", 12%Q); ("alice", 36%Q)].
Proof. vm_compute. reflexivity. Qed.

(* --------------------------------------------------------------------- *)
(* Examples for the sequences of timer calls                             *)
(* --------------------------------------------------------------------- *)


Lemma X3_elapsed_never_negative_witness :
  Forall (λ r, (0 <= r)%Z)
    (timer_calls [("alice", 0%Q, false); ("bob", 2%Q, false);
                  ("alice", 5%Q, true); ("alice", 15%Q, false);
                  ("bob", 40%Q, false)] ∅).2.
Proof.
  apply X3_elapsed_never_negative. unfold call_times. cbn.
  repeat (constructor; [|repeat (constructor; [cbn; lra|])]); constructor.
Defined.



(* --------------------------------------------------------------------- *)
(* Examples for match_eye_openness                                       *)
(* --------------------------------------------------------------------- *)



(* --------------------------------------------------------------------- *)
(* Examples for find_face                                                *)
(* --------------------------------------------------------------------- *)

(* bob qualifies with 0.45, alice and carol tie at 0.9: alice comes first *)
Lemma X11_find_face_first_best_witness :
  ∃ before person after,
    [mkKnownPerson "bob" [5 # 10] "456" "bob.jpg";
     mkKnownPerson "alice" [1%Q] "123" "alice.jpg";
     mkKnownPerson "carol" [1%Q] "789" "carol.jpg"] = before ++ person :: after ∧
    (4 # 10 < demo_similarity (kp_embedding person) [9 # 10])%Q ∧
    mkMatch "alice" (demo_similarity [1%Q] [9 # 10]) "123" "alice.jpg"
      = mkMatch (kp_name person)
          (demo_round2 (demo_similarity (kp_embedding person) [9 # 10]))
          (kp_pinfl person) (kp_image_path person) ∧
    (∀ other, other ∈ before →
       (4 # 10 < demo_similarity (kp_embedding other) [9 # 10])%Q →
       (demo_round2 (demo_similarity (kp_embedding other) [9 # 10])
        < demo_similarity [1%Q] [9 # 10])%Q) ∧
    (∀ other, other ∈ after →
       (4 # 10 < demo_similarity (kp_embedding other) [9 # 10])%Q →
       (demo_round2 (demo_similarity (kp_embedding other) [9 # 10])
        <= demo_similarity [1%Q] [9 # 10])%Q).
Proof.
  apply (X11_find_face_first_best demo_similarity demo_round2
           [mkKnownPerson "bob" [5 # 10] "456" "bob.jpg";
            mkKnownPerson "alice" [1%Q] "123" "alice.jpg";
            mkKnownPerson "carol" [1%Q] "789" "carol.jpg"]
           (4 # 10) [9 # 10]
           (mkMatch "alice" (demo_similarity [1%Q] [9 # 10]) "123" "alice.jpg")).
  vm_compute. reflexivity.
Defined.

(* --------------------------------------------------------------------- *)
(* Examples for the per-object body and the counters                     *)
(* --------------------------------------------------------------------- *)

Lemma X13_identity_only_improves_witness :
  let t0 := default (demo_new_TrackableObject 1 (demo_object [9 # 10] 0))
                    (trackableObjects demo_fa !! 1%Z) in
  ∃ fa' t',
    process_object demo_similarity demo_round2 demo_new_TrackableObject
      (demo_eyes [demo_open]) demo_fa (demo_object [9 # 10] 0) = Returned fa' ∧
    trackableObjects fa' !! 1%Z = Some t' ∧
    (score t0 <= score t')%Q ∧
    ((name t' = name t0 ∧ pinfl t' = pinfl t0 ∧ score t' = score t0 ∧
      image_path t' = image_path t0)
     ∨ ∃ p, recognized t0 = false ∧
            find_face demo_similarity demo_round2 (known_people demo_fa)
              (rec_thresh demo_fa) [9 # 10] = Some p ∧
            (score t0 < m_score p)%Q ∧
            name t' = m_name p ∧ pinfl t' = m_pinfl p ∧ score t' = m_score p ∧
            image_path t' = m_image_path p).
Proof.
  apply (X13_identity_only_improves demo_similarity demo_round2
           demo_new_TrackableObject (demo_eyes [demo_open]) demo_fa
           (demo_object [9 # 10] 0)).
  exact sightings_ok_empty.
Defined.



Lemma X16_counters_positive_witness :
  ∃ fa',
    run_frames demo_similarity demo_round2 demo_new_TrackableObject demo_fa
      [(demo_eyes [demo_open], [demo_object [9 # 10] 0]);
       (demo_eyes [], [])] = Returned fa' ∧
    (∀ n, is_Some (seen_people fa' !! n) ↔ is_Some (record_people fa' !! n)) ∧
    (∀ n c, seen_people fa' !! n = Some c → (1 <= c)%Z).
Proof.
  apply (X16_counters_positive demo_similarity demo_round2
           demo_new_TrackableObject); reflexivity.
Defined.

(* --------------------------------------------------------------------- *)
(* Examples for the closure state and the pass                           *)
(* --------------------------------------------------------------------- *)

(* closed at 0 and 2, unmatched at 3, closed at 4, open at 5 *)
Lemma X17_paused_iff_three_seconds_witness :
  let t' := foldl eye_frame_step (demo_new_TrackableObject 1 (demo_object [] 0))
              [(Some demo_closed, 0%Q); (Some demo_closed, 2%Q); (None, 3%Q);
               (Some demo_closed, 4%Q); (Some demo_open, 5%Q)] in
  (0 <= cumulative_closed_time t')%Q ∧
  (timer_paused t' = true ↔ (3 <= cumulative_closed_time t')%Q).
Proof.
  apply (X17_paused_iff_three_seconds (demo_new_TrackableObject 1 (demo_object [] 0))).
  - cbn. lra.
  - cbn. split; [discriminate|lra].
  - cbn. repeat (constructor; [|repeat (constructor; [cbn; lra|])]); constructor.
Defined.

Lemma X20_records_carry_frame_data_witness :
  ∃ fa',
    get demo_similarity demo_round2 demo_new_TrackableObject demo_fa_recognized
      (demo_eyes [demo_open]) [demo_object [] 1] = Returned fa' ∧
    ∀ id t', trackableObjects fa' !! id = Some t' →
      ∃ o, o ∈ [demo_object [] 1] ∧ obj_id o = id ∧
           bbox t' = obj_bbox o ∧ kps t' = obj_facial5points o ∧
           age t' = obj_age o ∧ gender t' = obj_gender o ∧
           live t' = true ∧ lost_count t' = 0%Z.
Proof.
  apply (X20_records_carry_frame_data demo_similarity demo_round2
           demo_new_TrackableObject).
  exact sightings_ok_empty.
Defined.

(* --------------------------------------------------------------------- *)
(* The statistics of EyeDetectionApp                                     *)
(* --------------------------------------------------------------------- *)

Lemma inject_Z_pos_nonzero z : (0 < z)%Z → Qeq_bool (inject_Z z) 0 = false.
Proof.
  intros Hz. apply not_true_iff_false. rewrite Qeq_bool_iff.
  unfold Qeq. cbn. lia.
Qed.

Lemma py_div_nonzero a z :
  z ≠ 0%Z → py_div a (inject_Z z) = Returned (a / inject_Z z)%Q.
Proof.
  intros Hz. unfold py_div.
  destruct (Qeq_bool (inject_Z z) 0) eqn:E; [|done].
  apply Qeq_bool_iff in E. unfold Qeq in E. cbn in E. lia.
Qed.

Lemma count_faces_ok faces : ∀ a,
  (0 <= EyeScript.awake_face_detections a)%Z →
  (0 <= EyeScript.closed_face_detections a)%Z →
  EyeScript.total_face_detections a
    = (EyeScript.awake_face_detections a + EyeScript.closed_face_detections a)%Z →
  let a' := foldl EyeScript.count_face a faces in
  EyeScript.frame_count a' = EyeScript.frame_count a ∧
  (0 <= EyeScript.awake_face_detections a')%Z ∧
  (0 <= EyeScript.closed_face_detections a')%Z ∧
  EyeScript.total_face_detections a'
    = (EyeScript.awake_face_detections a' + EyeScript.closed_face_detections a')%Z ∧
  EyeScript.total_face_detections a'
    = (EyeScript.total_face_detections a + Z.of_nat (length faces))%Z.
Proof.
  induction faces as [|[b] faces IH]; intros a Ha Hc Ht; cbn [foldl].
  - cbn. repeat split; try done. lia.
  - destruct (IH (EyeScript.count_face a (EyeScript.mkFace b)))
      as (H1 & H2 & H3 & H4 & H5).
    + unfold EyeScript.count_face. destruct b; cbn; lia.
    + unfold EyeScript.count_face. destruct b; cbn; lia.
    + unfold EyeScript.count_face. destruct b; cbn; lia.
    + cbv zeta in *. split; [rewrite H1; by destruct b|].
      split; [exact H2|]. split; [exact H3|]. split; [exact H4|].
      rewrite H5. cbn [length]. rewrite Nat2Z.inj_succ.
      unfold EyeScript.count_face. destruct b; cbn; lia.
Qed.

Lemma update_statistics_ok a result :
  EyeScript.stats_ok a → EyeScript.stats_ok (EyeScript.update_statistics a result).
Proof.
  intros (Hf & Ha & Hc & Ht & _). unfold EyeScript.update_statistics.
  destruct (0 <? EyeScript.faces_detected result)%Z.
  - destruct (count_faces_ok (EyeScript.faces_data result)
                (EyeScript.mkApp (EyeScript.frame_count a + 1)
                   (EyeScript.total_face_detections a)
                   (EyeScript.awake_face_detections a)
                   (EyeScript.closed_face_detections a)))
      as (H1 & H2 & H3 & H4 & _); [done..|].
    unfold EyeScript.stats_ok. rewrite H1. cbn. repeat split; try done; lia.
  - unfold EyeScript.stats_ok. cbn. repeat split; try done; lia.
Qed.


Lemma add_statistics_returns a :
  EyeScript.stats_ok a → ∃ r, EyeScript._add_statistics a = Returned r.
Proof.
  intros Hok. unfold EyeScript._add_statistics.
  destruct (0 <? EyeScript.frame_count a)%Z; cbn; [|eauto].
  destruct (0 <? EyeScript.total_face_detections a)%Z eqn:E; cbn; [|eauto].
  apply Z.ltb_lt in E. rewrite py_div_nonzero by lia. cbn. eauto.
Qed.

Lemma turns_ok (turn : EyeScript.App → bool → EyeScript.Tick → outcome EyeScript.Loop) :
  (∀ a paused tick, EyeScript.stats_ok a →
     ∃ l, turn a paused tick = Returned l ∧ EyeScript.stats_ok (EyeScript.app_of l)) →
  ∀ ticks l0, EyeScript.stats_ok (EyeScript.app_of l0) →
    ∃ l, EyeScript.turns turn l0 ticks = Returned l ∧
         EyeScript.stats_ok (EyeScript.app_of l).
Proof.
  intros Hturn. induction ticks as [|tick rest IH]; intros l0 Hok.
  - exists l0. by destruct l0.
  - destruct l0 as [a paused|a]; cbn [EyeScript.turns]; [|by exists (EyeScript.Stopped a)].
    destruct (Hturn a paused tick Hok) as (l1 & -> & Hok1). cbn. by apply IH.
Qed.

Lemma reset_statistics_ok a : EyeScript.stats_ok (EyeScript._reset_statistics a).
Proof. unfold EyeScript.stats_ok. cbn. lia. Qed.

Lemma camera_turn_ok a paused tick :
  EyeScript.stats_ok a →
  ∃ l, EyeScript.camera_turn a paused tick = Returned l ∧
       EyeScript.stats_ok (EyeScript.app_of l).
Proof.
  intros Hok. unfold EyeScript.camera_turn.
  assert (Hkeys : ∀ a0, EyeScript.stats_ok a0 →
    EyeScript.stats_ok (EyeScript.app_of
      (let key := Z.land (EyeScript.tick_key tick) 255 in
       if (key =? EyeScript.KEY_Q)%Z then EyeScript.Stopped a0
       else if (key =? EyeScript.KEY_S)%Z then EyeScript.Running a0 paused
       else if (key =? EyeScript.KEY_R)%Z
            then EyeScript.Running (EyeScript._reset_statistics a0) paused
       else if (key =? EyeScript.KEY_SPACE)%Z then EyeScript.Running a0 (negb paused)
       else EyeScript.Running a0 paused))).
  { intros a0 H0. cbv zeta. repeat case_match; cbn; try done;
      try apply reset_statistics_ok. }
  destruct paused.
  - eexists. split; [reflexivity|]. by apply Hkeys.
  - destruct (EyeScript.tick_frame tick) as [result|]; [|by eexists].
    pose proof (update_statistics_ok a result Hok) as Hok1.
    destruct (add_statistics_returns _ Hok1) as [r ->]. cbn.
    eexists. split; [reflexivity|]. by apply Hkeys.
Qed.

(** X21: the loop of process_camera never raises and keeps the counters
    consistent, whatever frames and keys arrive (including pauses and
    resets): every face detection is counted once, as awake or as closed,
    so total_face_detections = awake_face_detections +
    closed_face_detections, no counter is negative, and frame_count is
    positive whenever a face has been counted. *)
Theorem X21_camera_statistics_consistent a ticks :
  EyeScript.stats_ok a →
  ∃ l, EyeScript.process_camera a ticks = Returned l ∧
       EyeScript.stats_ok (EyeScript.app_of l).
Proof.
  intros Hok. apply (turns_ok EyeScript.camera_turn); [|done].
  intros a0 paused tick. apply camera_turn_ok.
Qed.


Lemma video_turn_ok total_frames a paused tick :
  total_frames ≠ 0%Z →
  EyeScript.stats_ok a →
  ∃ l, EyeScript.video_turn total_frames a paused tick = Returned l ∧
       EyeScript.stats_ok (EyeScript.app_of l).
Proof.
  intros Hnz Hok. unfold EyeScript.video_turn.
  assert (Hkeys : ∀ a0, EyeScript.stats_ok a0 →
    EyeScript.stats_ok (EyeScript.app_of
      (let key := Z.land (EyeScript.tick_key tick) 255 in
       if (key =? EyeScript.KEY_Q)%Z then EyeScript.Stopped a0
       else if (key =? EyeScript.KEY_SPACE)%Z then EyeScript.Running a0 (negb paused)
       else EyeScript.Running a0 paused))).
  { intros a0 H0. cbv zeta. by repeat case_match. }
  destruct paused.
  - eexists. split; [reflexivity|]. by apply Hkeys.
  - destruct (EyeScript.tick_frame tick) as [result|]; [|by eexists].
    pose proof (update_statistics_ok a result Hok) as Hok1.
    destruct (add_statistics_returns _ Hok1) as [r ->]. cbn.
    rewrite py_div_nonzero by done. cbn.
    eexists. split; [reflexivity|]. by apply Hkeys.
Qed.

(** X23: the loop of process_video divides frame_count by the frame count
    the video file reports: when that is 0 the first frame that is read
    raises ZeroDivisionError; when it is not 0 the loop never raises and
    keeps the counters consistent. *)
Theorem X23_video_progress_division a :
  EyeScript.stats_ok a →
  (∀ result key rest,
     EyeScript.process_video 0 a (EyeScript.mkTick (Some result) key :: rest)
       = Raised ZeroDivisionError) ∧
  (∀ total_frames ticks, total_frames ≠ 0%Z →
     ∃ l, EyeScript.process_video total_frames a ticks = Returned l ∧
          EyeScript.stats_ok (EyeScript.app_of l)).
Proof.
  intros Hok. split.
  - intros result key rest. unfold EyeScript.process_video.
    cbn [EyeScript.turns]. unfold EyeScript.video_turn. cbn [EyeScript.tick_frame].
    pose proof (update_statistics_ok a result Hok) as Hok1.
    destruct (add_statistics_returns _ Hok1) as [r ->]. by cbn.
  - intros total_frames ticks Hnz.
    apply (turns_ok (EyeScript.video_turn total_frames)); [|done].
    intros a0 paused tick. by apply video_turn_ok.
Qed.

Lemma init_stats_ok : EyeScript.stats_ok EyeScript.init.
Proof. unfold EyeScript.stats_ok. cbn. lia. Qed.

(* two faces, a pause, a reset, one more face, then 'q' *)
Lemma X21_camera_statistics_consistent_witness :
  ∃ l,
    EyeScript.process_camera EyeScript.init
      [EyeScript.mkTick
         (Some (EyeScript.mkResult 2 [EyeScript.mkFace true; EyeScript.mkFace false]))
         (-1);
       EyeScript.mkTick None 32; EyeScript.mkTick None 114; EyeScript.mkTick None 32;
       EyeScript.mkTick (Some (EyeScript.mkResult 1 [EyeScript.mkFace true])) 113]
      = Returned l ∧
    EyeScript.stats_ok (EyeScript.app_of l).
Proof.
  apply X21_camera_statistics_consistent. exact init_stats_ok.
Defined.


Lemma X23_video_progress_division_witness :
  EyeScript.process_video 0 EyeScript.init
    [EyeScript.mkTick (Some (EyeScript.mkResult 1 [EyeScript.mkFace true])) (-1)]
    = Raised ZeroDivisionError ∧
  ∃ l, EyeScript.process_video 250 EyeScript.init
         [EyeScript.mkTick (Some (EyeScript.mkResult 1 [EyeScript.mkFace true])) (-1)]
         = Returned l ∧
       EyeScript.stats_ok (EyeScript.app_of l).
Proof.
  destruct (X23_video_progress_division EyeScript.init init_stats_ok) as [H0 H1].
  split; [apply H0|]. apply H1. discriminate.
Defined.

(* --------------------------------------------------------------------- *)
(* The summary of test_eye_detection                                     *)
(* --------------------------------------------------------------------- *)

Lemma outcome_bind_Returned {A B} (a : A) (f : A → outcome B) :
  (Returned a ≫= f) = f a.
Proof. reflexivity. Qed.

Lemma percent_bounds a b :
  (0 <= a <= b)%Z → (0 < b)%Z →
  (0 <= inject_Z a / inject_Z b * 100 <= 100)%Q.
Proof.
  intros [Ha Hab] Hb.
  assert (H0 : (0 < inject_Z b)%Q) by (change 0%Q with (inject_Z 0); by rewrite <- Zlt_Qlt).
  assert (H1 : (0 <= inject_Z a)%Q) by (change 0%Q with (inject_Z 0); by rewrite <- Zle_Qle).
  assert (H2 : (inject_Z a <= inject_Z b)%Q) by by rewrite <- Zle_Qle.
  assert (H3 : (0 <= inject_Z a / inject_Z b <= 1)%Q).
  { split.
    - apply Qle_shift_div_l; [done|]. lra.
    - apply Qle_shift_div_r; [done|]. lra. }
  lra.
Qed.

Lemma count_bounds f l :
  (0 <= EyeTest.count f l <= Z.of_nat (length l))%Z.
Proof.
  unfold EyeTest.count. split; [lia|].
  apply inj_le. induction l as [|r l IH]; [done|].
  rewrite filter_cons. destruct (decide (f r = true)); cbn; lia.
Qed.

Lemma count_mono f g l :
  (∀ r, r ∈ l → f r = true → g r = true) →
  (EyeTest.count f l <= EyeTest.count g l)%Z.
Proof.
  unfold EyeTest.count. intros H. apply inj_le.
  induction l as [|r l IH]; [done|].
  assert (IH' : (length (filter (λ r, f r = true) l)
                 <= length (filter (λ r, g r = true) l))%nat).
  { apply IH. intros r' Hr'. apply H. by right. }
  rewrite !filter_cons.
  destruct (decide (f r = true)) as [Hf|Hf].
  - rewrite decide_True by (apply H; [by left|done]). cbn. lia.
  - destruct (decide (g r = true)); cbn; lia.
Qed.

Lemma entry_of_open_detected image r :
  EyeTest.entry_of image = Some r →
  EyeTest.e_both_eyes_open r = true → EyeTest.e_face_detected r = true.
Proof.
  unfold EyeTest.entry_of. destruct (image.2) as [d|]; [|done].
  destruct (EyeTest.face_detected d); intros [= <-]; cbn; done.
Qed.

(** X24: test_eye_detection returns at once when there is no image;
    when there are images but none can be loaded, its summary raises
    ZeroDivisionError; when at least one image loads it completes, the
    detection percentage lies between 0 and 100, and the eyes-open count
    and percentage are given exactly when a face was detected, the count
    being at most the number of detected faces. *)
Theorem X24_test_summary test_images :
  (test_images = [] → EyeTest.test_eye_detection test_images = Returned None) ∧
  (test_images ≠ [] → Forall (λ im, im.2 = None) test_images →
   EyeTest.test_eye_detection test_images = Raised ZeroDivisionError) ∧
  (Exists (λ im, is_Some im.2) test_images →
   ∃ s, EyeTest.test_eye_detection test_images = Returned (Some s) ∧
     (0 < EyeTest.s_total s)%Z ∧
     (0 <= EyeTest.s_faces_detected s <= EyeTest.s_total s)%Z ∧
     (0 <= EyeTest.s_faces_percentage s <= 100)%Q ∧
     match EyeTest.s_eyes s with
     | Some (eyes_open, percentage, _, _) =>
         (0 < EyeTest.s_faces_detected s)%Z ∧
         (0 <= eyes_open <= EyeTest.s_faces_detected s)%Z ∧
         (0 <= percentage <= 100)%Q
     | None => EyeTest.s_faces_detected s = 0%Z
     end).
Proof.
  split; [by intros ->|]. split.
  - intros Hne Hall.
    assert (Hnil : omap EyeTest.entry_of test_images = []).
    { clear Hne. induction Hall as [|[n d] l Hd _ IH]; [done|].
      cbn in Hd. subst d. cbn [omap list_omap]. cbn. exact IH. }
    destruct test_images as [|im rest]; [done|].
    unfold EyeTest.test_eye_detection. by rewrite Hnil.
  - intros Hex.
    assert (Hlen : (0 < Z.of_nat (length (omap EyeTest.entry_of test_images)))%Z).
    { induction Hex as [[n d] l [r Hr]|im l _ IH].
      - cbn in Hr. subst d. cbn [omap list_omap]. unfold EyeTest.entry_of at 1. cbn.
        destruct (EyeTest.face_detected r); cbn; lia.
      - cbn [omap list_omap]. destruct (EyeTest.entry_of im); cbn; lia. }
    assert (Hne : test_images ≠ []) by (intros ->; by apply Exists_nil in Hex).
    destruct test_images as [|im rest]; [done|].
    unfold EyeTest.test_eye_detection.
    set (results := omap EyeTest.entry_of (im :: rest)) in *.
    pose proof (count_bounds EyeTest.e_face_detected results) as Hf.
    pose proof (count_bounds EyeTest.e_both_eyes_open results) as He.
    assert (Heo : (EyeTest.count EyeTest.e_both_eyes_open results
                   <= EyeTest.count EyeTest.e_face_detected results)%Z).
    { apply count_mono. intros r Hr. subst results.
      apply list_elem_of_omap in Hr as (image & _ & Hi).
      by eapply entry_of_open_detected. }
    cbv zeta. rewrite (py_div_nonzero _ (Z.of_nat (length results))) by lia.
    rewrite outcome_bind_Returned.
    destruct (0 <? EyeTest.count EyeTest.e_face_detected results)%Z eqn:E.
    + apply Z.ltb_lt in E.
      rewrite !(py_div_nonzero _ (EyeTest.count EyeTest.e_face_detected results))
        by lia.
      rewrite !outcome_bind_Returned.
      eexists. split; [reflexivity|]. cbv beta iota delta [EyeTest.s_total
        EyeTest.s_faces_detected EyeTest.s_faces_percentage EyeTest.s_eyes].
      split; [done|]. split; [done|]. split; [by apply percent_bounds|].
      split; [done|]. split; [lia|]. apply percent_bounds; lia.
    + apply Z.ltb_ge in E. rewrite !outcome_bind_Returned.
      eexists. split; [reflexivity|]. cbv beta iota delta [EyeTest.s_total
        EyeTest.s_faces_detected EyeTest.s_faces_percentage EyeTest.s_eyes].
      split; [done|]. split; [done|]. split; [by apply percent_bounds|]. lia.
Qed.

(* --------------------------------------------------------------------- *)
(* draw_on                                                               *)
(* --------------------------------------------------------------------- *)

(* unfold the binds of the outcome monad, and nothing else *)
Ltac run_bind := cbv beta iota delta [mbind outcome_bind mret outcome_ret].

Lemma filter_rectangle_imap (f : nat → string → Draw) (l : list string) :
  (∀ i s, is_rectangle (f i s) = false) →
  filter (λ d, is_rectangle d = true) (imap f l) = [].
Proof.
  revert f. induction l as [|s l IH]; intros f Hf; [done|].
  rewrite imap_cons, filter_cons, Hf.
  rewrite decide_False by done. apply IH. intros i s'. apply Hf.
Qed.

Lemma timer_text_call timers n current_time t :
  (timer_text timers n current_time t).1
    = if recognized t
      then (update_person_timer timers n current_time (timer_paused t)).1
      else timers.
Proof. unfold timer_text. by destruct (recognized t). Qed.

(* what one turn of the loop of draw_on does when it does not raise *)
Lemma draw_track_returned seen timers t current_time timers' draws :
  draw_track seen timers t current_time = Returned (timers', draws) →
  timers' = (timer_calls (option_list (timer_call (t, current_time))) timers).1 ∧
  filter (λ d, is_rectangle d = true) draws
    = (if live t then [rectangle_of t] else []).
Proof.
  unfold draw_track, timer_call, rectangle_of, shown_name. cbn [fst snd].
  destruct (live t); cbn [negb andb].
  2:{ intros [= <- <-]. by split. }
  destruct (bbox t) as [[[x1 y1] x2] y2].
  assert (Hrect : ∀ tm info c,
    (mret (tm, Rectangle (py_int x1, py_int y1) (py_int x2, py_int y2) c
               :: imap (λ i line,
                          PutText line
                            (py_int x1, (py_int y1 - 65 + Z.of_nat i * 30)%Z) c) info)
       : outcome _) = Returned (timers', draws) →
    timers' = tm ∧
    filter (λ d, is_rectangle d = true) draws
      = [Rectangle (py_int x1, py_int y1) (py_int x2, py_int y2) c]).
  { intros tm info c [= <- <-]. split; [done|].
    rewrite filter_cons. cbn. f_equal. by apply filter_rectangle_imap. }
  destruct (String.eqb (name t) "unknown") eqn:En; cbn [negb andb].
  - rewrite andb_false_r. run_bind. intros H. apply Hrect in H as [-> ->].
    by split.
  - rewrite andb_true_r.
    destruct (String.index 0 "red" (name t)) as [idx|];
      (destruct (seen !! name t) as [c|] eqn:Es; unfold seen_lookup; rewrite Es;
       run_bind; [|done]);
      intros H; apply Hrect in H as [-> ->]; (split; [|done]);
      rewrite timer_text_call; by destruct (recognized t).
Qed.

Lemma draw_on_returned seen items : ∀ timers timers' draws,
  draw_on seen timers items = Returned (timers', draws) →
  timers' = (timer_calls (omap timer_call items) timers).1 ∧
  filter (λ d, is_rectangle d = true) draws
    = rectangle_of <$> filter (λ t, live t = true) items.*1.
Proof.
  induction items as [|[t now] rest IH]; intros timers timers' draws.
  - intros [= <- <-]. by split.
  - cbn [draw_on].
    destruct (draw_track seen timers t now) as [[tm1 ds1]|e] eqn:E1; cbn; [|done].
    destruct (draw_on seen tm1 rest) as [[tm2 ds2]|e] eqn:E2; cbn; [|done].
    intros [= <- <-].
    destruct (draw_track_returned _ _ _ _ _ _ E1) as [-> Hr1].
    destruct (IH _ _ _ E2) as [-> Hr2]. split.
    + cbn [omap list_omap].
      destruct (timer_call (t, now)) as [[[n c] p]|]; [|done].
      by cbn.
    + rewrite filter_app, Hr1, Hr2.
      destruct (live t); [by rewrite decide_True|by rewrite decide_False].
Qed.

Lemma draw_track_returns seen timers t current_time :
  (live t = true → name t = "unknown" ∨ is_Some (seen !! name t)) →
  ∃ r, draw_track seen timers t current_time = Returned r.
Proof.
  intros Hn. unfold draw_track. destruct (live t); cbn [negb]; [|by eexists].
  destruct (bbox t) as [[[x1 y1] x2] y2].
  destruct (String.eqb (name t) "unknown") eqn:En; [cbn; by eexists|].
  destruct (Hn eq_refl) as [Hu|[c Hc]].
  { apply String.eqb_neq in En. done. }
  unfold seen_lookup. rewrite Hc.
  destruct (String.index 0 "red" (name t)); cbn;
    destruct (timer_text _ _ _ _); by eexists.
Qed.

Lemma draw_on_returns seen items : ∀ timers,
  (∀ t, t ∈ items.*1 → live t = true →
        name t = "unknown" ∨ is_Some (seen !! name t)) →
  ∃ r, draw_on seen timers items = Returned r.
Proof.
  induction items as [|[t now] rest IH]; intros timers Hn; [by eexists|].
  cbn [draw_on].
  destruct (draw_track_returns seen timers t now) as [[tm1 ds1] ->].
  { apply Hn. by left. }
  cbn. destruct (IH tm1) as [[tm2 ds2] ->].
  { intros t' Ht'. apply Hn. by right. }
  cbn. by eexists.
Qed.

(** X25: when draw_on completes, PERSON_TIMERS has been advanced by
    exactly one call of update_person_timer for every live, recognized
    track whose name is not "unknown", in the order of the registry, with
    the track's shown name (cut before 'red'), the clock value read for it
    and its timer_paused flag; no other track touches PERSON_TIMERS. *)
Theorem X25_draw_on_timer_calls seen timers items timers' draws :
  draw_on seen timers items = Returned (timers', draws) →
  timers' = (timer_calls (omap timer_call items) timers).1.
Proof. intros H. by apply draw_on_returned in H as [? _]. Qed.


(** X27: draw_on raises KeyError at the first live track whose name is
    neither "unknown" nor a key of seen_people.  When new records are
    named "unknown" by their constructor, this never happens on a registry
    produced by get: after any run of frames from a state with an empty
    registry and empty sighting maps, draw_on completes on the records of
    the registry, whatever PERSON_TIMERS holds. *)
Theorem X27_draw_on_key_error
    (similarity : Embedding → Embedding → Q) (round2 : Q → Q)
    (new_TrackableObject : Z → TrackedObject → TrackableObject) :
  (∀ seen timers t current_time rest,
     live t = true → name t ≠ "unknown" → seen !! name t = None →
     draw_on seen timers ((t, current_time) :: rest) = Raised KeyError) ∧
  (∀ frames fa,
     (∀ id obj, name (new_TrackableObject id obj) = "unknown") →
     trackableObjects fa = ∅ → seen_people fa = ∅ → record_people fa = ∅ →
     ∃ fa', run_frames similarity round2 new_TrackableObject fa frames
              = Returned fa' ∧
       ∀ timers items,
         (∀ t, t ∈ items.*1 → ∃ id, trackableObjects fa' !! id = Some t) →
         ∃ r, draw_on (seen_people fa') timers items = Returned r).
Proof.
  split.
  - intros seen timers t now rest Hl Hn Hs. cbn [draw_on].
    unfold draw_track. rewrite Hl. cbn [negb].
    destruct (bbox t) as [[[x1 y1] x2] y2].
    apply String.eqb_neq in Hn. rewrite Hn.
    unfold seen_lookup. rewrite Hs.
    by destruct (String.index 0 "red" (name t)).
  - intros frames fa Hnew Hreg Hseen Hrec.
    destruct (run_frames_names_counted similarity round2 new_TrackableObject
                frames fa Hnew) as (fa' & Hrun & _ & Hnc).
    + rewrite Hseen, Hrec. apply sightings_ok_empty.
    + intros id t Ht. by rewrite Hreg, lookup_empty in Ht.
    + exists fa'. split; [done|]. intros timers items Hitems.
      apply draw_on_returns. intros t Ht _.
      destruct (Hitems t Ht) as [id Hid]. by apply (Hnc id).
Qed.

(* --------------------------------------------------------------------- *)
(* Examples for draw_on                                                  *)
(* --------------------------------------------------------------------- *)

Example draw_on_demo :
  ∃ timers',
    draw_on {[ "alice" := 1%Z ]} ∅ demo_items
      = Returned
          (timers',
           [Rectangle (0, 0)%Z (7, 10)%Z (0, 0, 255)%Z;
            PutText "R: Open L: Closed" (0, -65)%Z (0, 0, 255)%Z;
            PutText "alice" (0, -35)%Z (0, 0, 255)%Z;
            PutText "Time: 0s (PAUSED)" (0, -5)%Z (0, 0, 255)%Z;
            Rectangle (0, 0)%Z (7, 10)%Z (0, 0, 255)%Z;
            PutText "R: unknown L: unknown" (0, -65)%Z (0, 0, 255)%Z;
            PutText "unknown" (0, -35)%Z (0, 0, 255)%Z]) ∧
    timers' !! "alice" = Some (mkTimer 3 3 None (Some 0%Z)).
Proof. eexists. split; [vm_compute; reflexivity|]. vm_compute. reflexivity. Qed.

Example shown_name_cut :
  shown_name "ali red" = "ali" ∧ shown_name "red" = "re" ∧ shown_name "bob" = "bob".
Proof. repeat split; reflexivity. Qed.

Lemma X25_draw_on_timer_calls_witness :
  match draw_on {[ "alice" := 1%Z ]} ∅ demo_items with
  | Returned (timers', _) =>
      timers' = (timer_calls (omap timer_call demo_items) ∅).1
  | Raised _ => False
  end.
Proof.
  destruct (draw_on {[ "alice" := 1%Z ]} ∅ demo_items) as [[timers' draws]|e] eqn:E.
  - exact (X25_draw_on_timer_calls _ _ _ _ _ E).
  - vm_compute in E. discriminate E.
Defined.


Lemma X27_draw_on_key_error_witness :
  ∃ fa',
    run_frames demo_similarity demo_round2 demo_new_TrackableObject demo_fa
      [(demo_eyes [demo_open], [demo_object [9 # 10] 0])] = Returned fa' ∧
    ∀ timers items,
      (∀ t, t ∈ items.*1 → ∃ id, trackableObjects fa' !! id = Some t) →
      ∃ r, draw_on (seen_people fa') timers items = Returned r.
Proof.
  destruct (X27_draw_on_key_error demo_similarity demo_round2
              demo_new_TrackableObject) as [_ H].
  apply H; reflexivity.
Defined.

(* --------------------------------------------------------------------- *)
(* Examples for records after a gap                                      *)
(* --------------------------------------------------------------------- *)

(* alice's track is missing from one frame and comes back *)
Lemma X28_record_forgotten_after_gap_witness :
  ∃ fa1 fa2 fa2',
    get demo_similarity demo_round2 demo_new_TrackableObject demo_fa_recognized
      (demo_eyes []) [] = Returned fa1 ∧
    trackableObjects fa1 !! 1%Z = None ∧
    get demo_similarity demo_round2 demo_new_TrackableObject fa1
      (demo_eyes [demo_open]) [demo_object [] 2] = Returned fa2 ∧
    get demo_similarity demo_round2 demo_new_TrackableObject
      (set_trackableObjects ∅ fa1) (demo_eyes [demo_open]) [demo_object [] 2]
      = Returned fa2' ∧
    is_Some (trackableObjects fa2 !! 1%Z) ∧
    trackableObjects fa2 !! 1%Z = trackableObjects fa2' !! 1%Z.
Proof.
  apply (X28_record_forgotten_after_gap demo_similarity demo_round2
           demo_new_TrackableObject demo_fa_recognized (demo_eyes []) []
           (demo_eyes [demo_open]) (demo_object [] 2)).
  - exact sightings_ok_empty.
  - apply not_elem_of_nil.
Defined.

Example record_forgotten_name :
  ∃ fa1 fa2 t,
    get demo_similarity demo_round2 demo_new_TrackableObject demo_fa_recognized
      (demo_eyes []) [] = Returned fa1 ∧
    get demo_similarity demo_round2 demo_new_TrackableObject fa1
      (demo_eyes [demo_open]) [demo_object [] 2] = Returned fa2 ∧
    trackableObjects fa2 !! 1%Z = Some t ∧
    name t = "unknown" ∧ recognized t = false.
Proof.
  do 3 eexists. split; [vm_compute; reflexivity|].
  split; [vm_compute; reflexivity|]. split; [vm_compute; reflexivity|].
  split; reflexivity.
Qed.

Lemma X29_open_records_not_paused_witness :
  ∃ fa',
    get demo_similarity demo_round2 demo_new_TrackableObject demo_fa_recognized
      (demo_eyes [demo_open]) [demo_object [] 1] = Returned fa' ∧
    ∀ id t', trackableObjects fa' !! id = Some t' →
      left_eye_open t' = "Open" → right_eye_open t' = "Open" →
      cumulative_closed_time t' = 0%Q ∧ timer_paused t' = false.
Proof.
  apply (X29_open_records_not_paused demo_similarity demo_round2
           demo_new_TrackableObject).
  exact sightings_ok_empty.
Defined.
